(** * Span decoding and span-level scoring of [run_ner.py]

    A shallow embedding of [find_all_tags], [precision], [recall] and
    [compute_f1] of [src/run_ner.py], and the properties of the span
    extractor and of the metric evaluator that are stated about them.

    Conventions of the embedding.
    - A numpy [int32] vector is a [list Z]; positions are [nat].
    - Indexing [a[i]] with [i] past the end raises [IndexError]; the indices
      of this program are never negative, so numpy's wrap-around of
      negative indices never comes into play.
    - A [while] loop is a [Fixpoint] on a fuel argument; the outcome
      [OutOfFuel] is proved unreachable for the fuel the entry points give.
    - The value of Python's true division is read as an exact rational
      ([Q]); a zero divisor raises [ZeroDivisionError].
    - The tensors handed to [compute_f1] hold integral values; their
      conversion to [int32] arrays is the wrap-around to 32 bits. *)

From Stdlib Require Import List ZArith QArith Qminmax Lia Lqa Bool Arith Sorted.
Import ListNotations.

Local Open Scope Z_scope.

(** ** Outcomes of Python code *)

Inductive exn : Type :=
| IndexError
| ValueError
| ZeroDivisionError.

Inductive outcome (A : Type) : Type :=
| Returns (a : A)
| Raises (e : exn)
| OutOfFuel.

Arguments Returns {A} a.
Arguments Raises {A} e.
Arguments OutOfFuel {A}.

Definition bind {A B : Type} (c : outcome A) (k : A -> outcome B) : outcome B :=
  match c with
  | Returns a => k a
  | Raises e => Raises e
  | OutOfFuel => OutOfFuel
  end.

Notation "x <- c ;; k" := (bind c (fun x => k))
  (at level 61, c at next level, right associativity).

(** ** Arrays *)

(** [a[i]] for [0 <= i]. *)
Definition getitem (a : list Z) (i : nat) : outcome Z :=
  match nth_error a i with
  | Some v => Returns v
  | None => Raises IndexError
  end.

(** [a[lo:hi]] for [0 <= lo]: numpy clips both ends to the array. *)
Definition slice (a : list Z) (lo hi : nat) : list Z :=
  firstn (hi - lo) (skipn lo a).

(** [(a == b).all()] on two vectors: element-wise when the shapes agree,
    broadcast when one of them has a single element, and an error for any
    other pair of shapes.  Slices of two arrays of one length always have
    one shape. *)
Definition eq_all (a b : list Z) : outcome bool :=
  if (length a =? length b)%nat then
    Returns (forallb (fun xy => fst xy =? snd xy) (combine a b))
  else if (length a =? 1)%nat then
    Returns (forallb (fun y => hd 0 a =? y) b)
  else if (length b =? 1)%nat then
    Returns (forallb (fun x => x =? hd 0 b) a)
  else Raises ValueError.

(** [a.astype("int32")]: two's complement wrap-around to 32 bits. *)
Definition int32 (z : Z) : Z :=
  (z + 2 ^ 31) mod 2 ^ 32 - 2 ^ 31.

Definition astype_int32 (a : list Z) : list Z := map int32 a.

(** [sum(l)] *)
Definition sum (l : list Z) : Z := fold_left Z.add l 0.

(** [a / b] on numbers. *)
Definition truediv (a b : Q) : outcome Q :=
  if Qeq_bool b 0 then Raises ZeroDivisionError else Returns (a / b)%Q.

(** ** The tag vocabulary *)

Definition B_PER : Z := 0.
Definition I_PER : Z := 1.
Definition B_ORG : Z := 2.
Definition I_ORG : Z := 3.
Definition B_LOC : Z := 4.
Definition I_LOC : Z := 5.
Definition O_TAG : Z := 6.

(** ** Spans and the span collection *)

(** [(start, length)]: the position of the Begin tag and the number of
    Inside tags that follow it. *)
Definition span : Type := (nat * nat)%type.

(** The dictionary [tags] of [find_all_tags]; its three keys are fixed, in
    insertion order ["per"], ["loc"], ["org"]. *)
Record tags : Type := mk_tags {
  per : list span;
  loc : list span;
  org : list span
}.

Definition empty_tags : tags := mk_tags [] [] [].

Definition append_per (t : tags) (s : span) : tags :=
  mk_tags (per t ++ [s]) (loc t) (org t).
Definition append_loc (t : tags) (s : span) : tags :=
  mk_tags (per t) (loc t ++ [s]) (org t).
Definition append_org (t : tags) (s : span) : tags :=
  mk_tags (per t) (loc t) (org t ++ [s]).

(** The spans of a collection in the order [for tag_name in result] visits
    them. *)
Definition all_spans (t : tags) : list span := per t ++ loc t ++ org t.

(** ** [find_all_tags] *)

(** The inner loop, [while predictions[seek] == itag: length += 1; seek += 1],
    which is written three times in the source, once per Inside tag. *)
Fixpoint seek_loop (fuel : nat) (predictions : list Z) (itag : Z)
    (len seek : nat) : outcome nat :=
  match fuel with
  | O => OutOfFuel
  | S fuel' =>
      t <- getitem predictions seek ;;
      if t =? itag
      then seek_loop fuel' predictions itag (len + 1) (seek + 1)
      else Returns len
  end.

(** [length = 0; seek = idx + 1; while ...] *)
Definition count_inside (predictions : list Z) (itag : Z) (idx : nat)
    : outcome nat :=
  seek_loop (S (length predictions)) predictions itag 0 (idx + 1).

(** The outer loop, [while idx < len(predictions)]. *)
Fixpoint scan_loop (fuel : nat) (predictions dev_mask : list Z)
    (idx : nat) (t : tags) : outcome tags :=
  match fuel with
  | O => OutOfFuel
  | S fuel' =>
      if (idx <? length predictions)%nat then
        m <- getitem dev_mask idx ;;
        if m =? 0 then scan_loop fuel' predictions dev_mask (idx + 1) t
        else
          p <- getitem predictions idx ;;
          if p =? O_TAG then scan_loop fuel' predictions dev_mask (idx + 1) t
          else if p =? B_PER then
            len <- count_inside predictions I_PER idx ;;
            scan_loop fuel' predictions dev_mask (idx + (len + 1))
              (append_per t (idx, len))
          else if p =? B_ORG then
            len <- count_inside predictions I_ORG idx ;;
            scan_loop fuel' predictions dev_mask (idx + (len + 1))
              (append_org t (idx, len))
          else if p =? B_LOC then
            len <- count_inside predictions I_LOC idx ;;
            scan_loop fuel' predictions dev_mask (idx + (len + 1))
              (append_loc t (idx, len))
          else scan_loop fuel' predictions dev_mask (idx + 1) t
      else Returns t
  end.

Definition find_all_tags (predictions dev_mask : list Z) : outcome tags :=
  scan_loop (S (length predictions)) predictions dev_mask 0 empty_tags.

(** ** [precision], [recall], [compute_f1] *)

(** The condition of lines 81 and 95:
    [(predictions[s:s+l+1] == dev_labels[s:s+l+1]).all()]. *)
Definition span_matches (predictions dev_labels : list Z) (res : span)
    : outcome bool :=
  eq_all (slice predictions (fst res) (fst res + snd res + 1))
         (slice dev_labels (fst res) (fst res + snd res + 1)).

(** [for res in result[tag_name]: pre.append(1 or 0)] *)
Fixpoint score_spans (predictions dev_labels : list Z) (spans : list span)
    (pre : list Z) : outcome (list Z) :=
  match spans with
  | [] => Returns pre
  | res :: rest =>
      b <- span_matches predictions dev_labels res ;;
      score_spans predictions dev_labels rest
        (pre ++ [if b : bool then 1 else 0])
  end.

(** [for tag_name in result: ...] followed by the final ratio. *)
Definition score_tags (predictions dev_labels : list Z) (result : tags)
    : outcome Q :=
  pre <- score_spans predictions dev_labels (per result) [] ;;
  pre <- score_spans predictions dev_labels (loc result) pre ;;
  pre <- score_spans predictions dev_labels (org result) pre ;;
  if (length pre =? 0)%nat then Returns 0%Q
  else truediv (inject_Z (sum pre)) (inject_Z (Z.of_nat (length pre))).

Definition precision (predictions dev_labels dev_mask : list Z) : outcome Q :=
  result <- find_all_tags predictions dev_mask ;;
  score_tags predictions dev_labels result.

Definition recall (predictions dev_labels dev_mask : list Z) : outcome Q :=
  result <- find_all_tags dev_labels dev_mask ;;
  score_tags predictions dev_labels result.

Definition compute_f1 (predictions dev_labels dev_mask : list Z) : outcome Q :=
  let predictions := astype_int32 predictions in
  let dev_labels := astype_int32 dev_labels in
  let dev_mask := astype_int32 dev_mask in
  p <- precision predictions dev_labels dev_mask ;;
  r <- recall predictions dev_labels dev_mask ;;
  if Qeq_bool p 0 && Qeq_bool r 0 then Returns 0%Q
  else truediv (2 * p * r)%Q (p + r)%Q.

(** ** Definitions that follow the stated properties *)

(** The entity categories, the keys of the span collection. *)
Inductive category : Type := PER | LOC | ORG.

Definition begin_tag (c : category) : Z :=
  match c with PER => B_PER | LOC => B_LOC | ORG => B_ORG end.

Definition inside_tag (c : category) : Z :=
  match c with PER => I_PER | LOC => I_LOC | ORG => I_ORG end.

(** [result[tag_name]] *)
Definition spans_of (c : category) (t : tags) : list span :=
  match c with PER => per t | LOC => loc t | ORG => org t end.

(** The length of the maximal run of [itag] at the head of [l]: the run
    ends at the first other tag or where [l] ends. *)
Fixpoint inside_run (itag : Z) (l : list Z) : nat :=
  match l with
  | x :: l' => if x =? itag then S (inside_run itag l') else O
  | [] => O
  end.

(** The tag indices of the fixed vocabulary, [0..6]. *)
Definition in_vocabulary (T : list Z) : Prop :=
  Forall (fun t => 0 <= t <= 6) T.

(** The values an [int32] array can hold. *)
Definition int32_array (a : list Z) : Prop :=
  Forall (fun z => - 2 ^ 31 <= z < 2 ^ 31) a.

(** [P[start : start+length+1]] is element-wise identical to
    [G[start : start+length+1]]: the two slices are the same sequence. *)
Definition slices_identical (P G : list Z) (s : span) : bool :=
  if list_eq_dec Z.eq_dec
       (slice P (fst s) (fst s + snd s + 1))
       (slice G (fst s) (fst s + snd s + 1))
  then true else false.

(** The entry 1 or 0 that an exact match or a mismatch adds to the list
    [pre]. *)
Definition indicator (P G : list Z) (s : span) : Z :=
  if slices_identical P G s then 1 else 0.

(** The number of spans of [spans] that are exact matches. *)
Definition exact_matches (P G : list Z) (spans : list span) : nat :=
  length (filter (slices_identical P G) spans).

(** count / total, and 0 for an empty collection. *)
Definition match_ratio (P G : list Z) (spans : list span) : Q :=
  match spans with
  | [] => 0%Q
  | _ :: _ =>
      (inject_Z (Z.of_nat (exact_matches P G spans))
       / inject_Z (Z.of_nat (length spans)))%Q
  end.

(** Position [i] lies in the extent [[start, start+length]] of [s]. *)
Definition in_extent (s : span) (i : nat) : Prop :=
  (fst s <= i <= fst s + snd s)%nat.

(** Position [i] lies strictly inside the continuation run of [s]. *)
Definition in_continuation (s : span) (i : nat) : Prop :=
  (fst s < i <= fst s + snd s)%nat.

(** The category a Begin tag opens, if the tag is one. *)
Definition category_of_begin (p : Z) : option category :=
  if p =? B_PER then Some PER
  else if p =? B_ORG then Some ORG
  else if p =? B_LOC then Some LOC
  else None.

(** [tags[c].append(s)] *)
Definition append_span (c : category) (t : tags) (s : span) : tags :=
  match c with
  | PER => append_per t s
  | LOC => append_loc t s
  | ORG => append_org t s
  end.

(** What holds of a span of category [c] that a scan of [T] under the mask
    [M] has emitted: it starts at an unmasked Begin tag of [c], its length is
    the maximal run of the Inside tag of [c] after the start, and the tag
    that ends the run is inside the sequence. *)
Definition emitted (T M : list Z) (c : category) (s : span) : Prop :=
  (exists m, nth_error M (fst s) = Some m /\ m <> 0) /\
  nth_error T (fst s) = Some (begin_tag c) /\
  snd s = inside_run (inside_tag c) (skipn (fst s + 1) T) /\
  (fst s + 1 + snd s < length T)%nat.

(** ** [evaluate] *)

(** [torch.argmax] along one row of scores: the index of the first maximal
    value; a row without scores is an error.  The scores, floats in the
    source, are read as rationals. *)
Fixpoint argmax_from (best : Q) (best_i i : nat) (row : list Q) : nat :=
  match row with
  | [] => best_i
  | x :: row' =>
      if Qle_bool x best then argmax_from best best_i (S i) row'
      else argmax_from x i (S i) row'
  end.

Definition argmax_row (row : list Q) : outcome Z :=
  match row with
  | [] => Raises IndexError
  | x :: row' => Returns (Z.of_nat (argmax_from x 0 1 row'))
  end.

(** [torch.argmax(outputs, dim=1)] *)
Fixpoint argmax (outputs : list (list Q)) : outcome (list Z) :=
  match outputs with
  | [] => Returns []
  | row :: rest =>
      i <- argmax_row row ;;
      labels <- argmax rest ;;
      Returns (i :: labels)
  end.

(** [(dev_labels >= 0).float()] *)
Definition labels_mask (dev_labels : list Z) : list Z :=
  map (fun l => if 0 <=? l then 1 else 0) dev_labels.

Section Evaluate.

(** The network of [modeling.py], which is not part of the sources at
    hand: it maps the token ids of a batch to one row of tag scores per
    token. *)
Variable model : list (list Z) -> list (list Q).

(** The loop over [dev_batches]; a batch is a pair [(ids, labels)]. *)
Fixpoint predict_batches (dev_batches : list (list (list Z) * list (list Z)))
    (all_predictions : list Z) : outcome (list Z) :=
  match dev_batches with
  | [] => Returns all_predictions
  | (ids, _) :: rest =>
      predicted_lbl <- argmax (model ids) ;;
      predict_batches rest (all_predictions ++ predicted_lbl)
  end.

Definition evaluate (dev_labels : list (list Z))
    (dev_batches : list (list (list Z) * list (list Z))) : outcome Q :=
  all_predictions <- predict_batches dev_batches [] ;;
  let dev_labels := concat dev_labels in
  let dev_mask := labels_mask dev_labels in
  compute_f1 all_predictions dev_labels dev_mask.

End Evaluate.

(** ** The checkpoint promotion of [main] *)

(** What lines 165 to 206 of [main] keep between two evaluations:
    [max_score], the number of the evaluation whose weights
    [pytorch_model.bin] holds, and the score written to
    [eval_results.txt]. *)
Record run_state : Type := mk_run_state {
  max_score : Q;
  saved : option nat;
  results : option Q
}.

(** [max_score = 0.0], nothing written yet. *)
Definition initial_state : run_state := mk_run_state 0 None None.

(** Lines 190 to 206 for the [k]-th evaluation, [score] being what
    [evaluate] returned: [if score > max_score: max_score = score;
    save_model = True], then [if save_model: torch.save(...);
    if max_score: write the results file]. *)
Definition after_evaluation (k : nat) (score : Q) (st : run_state)
    : run_state :=
  if negb (Qle_bool score (max_score st)) then
    mk_run_state score (Some k)
      (if Qeq_bool score 0 then results st else Some score)
  else st.

(** The evaluations of a run, numbered from [k]. *)
Fixpoint evaluations (k : nat) (scores : list Q) (st : run_state)
    : run_state :=
  match scores with
  | [] => st
  | score :: rest => evaluations (S k) rest (after_evaluation k score st)
  end.

(** What holds of the state after the evaluations [done]. *)
Definition promoted (done : list Q) (st : run_state) : Prop :=
  (forall s : Q, In s done -> (s <= max_score st)%Q) /\
  (saved st = None -> max_score st = 0%Q /\ results st = None) /\
  (forall k : nat,
     saved st = Some k ->
     nth_error done k = Some (max_score st) /\
     (0 < max_score st)%Q /\
     results st = Some (max_score st) /\
     forall (j : nat) (s : Q),
       (j < k)%nat -> nth_error done j = Some s -> (s < max_score st)%Q).

(** ** Collections of concatenated sequences *)

(** The span [s] seen from a sequence that has [n] more positions in
    front. *)
Definition shift_span (n : nat) (s : span) : span :=
  ((n + fst s)%nat, snd s).

Definition shift_tags (n : nat) (t : tags) : tags :=
  mk_tags (map (shift_span n) (per t)) (map (shift_span n) (loc t))
          (map (shift_span n) (org t)).

Definition concat_tags (t1 t2 : tags) : tags :=
  mk_tags (per t1 ++ per t2) (loc t1 ++ loc t2) (org t1 ++ org t2).

(** ** Definitions for the further properties *)

(** Position [i] holds a Begin tag of category [c] that the mask keeps. *)
Definition unmasked_begin (T M : list Z) (c : category) (i : nat) : Prop :=
  (exists m, nth_error M i = Some m /\ m <> 0) /\
  nth_error T i = Some (begin_tag c).

(** The number of Inside tags of [c] that follow position [i]. *)
Definition run_after (T : list Z) (c : category) (i : nat) : nat :=
  inside_run (inside_tag c) (skipn (i + 1) T).

(** The extent of [s1] ends before [s2] starts. *)
Definition span_before (s1 s2 : span) : Prop :=
  (fst s1 + snd s1 < fst s2)%nat.

(** No position of [T] holds a Begin tag. *)
Definition no_begin (T : list Z) : Prop :=
  forall (c : category) (i : nat), nth_error T i <> Some (begin_tag c).

(** * Properties *)

(** ** Outcomes *)

Lemma bind_returns {A B : Type} (c : outcome A) (k : A -> outcome B) (b : B) :
  bind c k = Returns b -> exists a, c = Returns a /\ k a = Returns b.
Proof.
  destruct c as [a | e | ]; simpl; intros H; try discriminate.
  exists a; split; [reflexivity | exact H].
Qed.

Lemma getitem_returns (a : list Z) (i : nat) (v : Z) :
  getitem a i = Returns v <-> nth_error a i = Some v.
Proof.
  unfold getitem; destruct (nth_error a i); split; intros H;
    inversion H; reflexivity.
Qed.

Lemma getitem_in_range (a : list Z) (i : nat) :
  (i < length a)%nat -> exists v, getitem a i = Returns v.
Proof.
  intros H; unfold getitem.
  destruct (nth_error a i) as [v | ] eqn:E; [exists v; reflexivity | ].
  apply nth_error_None in E; lia.
Qed.

(** ** The continuation lookahead *)

Lemma skipn_cons_nth (a : list Z) (i : nat) (v : Z) :
  nth_error a i = Some v -> skipn i a = v :: skipn (S i) a.
Proof.
  revert i; induction a as [ | x a IH]; intros [ | i] H; simpl in *;
    try discriminate.
  - inversion H; reflexivity.
  - apply IH; exact H.
Qed.

(** The inner loop computes the maximal run, and raises [IndexError] when
    the run reaches the end of the sequence. *)
Lemma seek_loop_eq (fuel : nat) (T : list Z) (itag : Z) :
  forall len seek : nat,
  (length T - seek < fuel)%nat ->
  seek_loop fuel T itag len seek =
  if (seek + inside_run itag (skipn seek T) <? length T)%nat
  then Returns (len + inside_run itag (skipn seek T))%nat
  else Raises IndexError.
Proof.
  induction fuel as [ | fuel IH]; intros len seek Hf.
  - lia.
  - simpl; unfold getitem.
    destruct (nth_error T seek) as [t | ] eqn:E; simpl.
    + rewrite (skipn_cons_nth _ _ _ E); cbn [inside_run].
      assert (Hlt : (seek < length T)%nat)
        by (apply nth_error_Some; congruence).
      destruct (t =? itag).
      * rewrite IH by lia.
        replace (seek + 1)%nat with (S seek) by lia.
        set (r := inside_run itag (skipn (S seek) T)).
        replace (seek + S r)%nat with (S seek + r)%nat by lia.
        destruct (_ <? _)%nat; [f_equal; lia | reflexivity].
      * destruct (Nat.ltb_spec (seek + 0) (length T)); [ | lia].
        f_equal; lia.
    + apply nth_error_None in E.
      rewrite skipn_all2 by lia; simpl.
      destruct (Nat.ltb_spec (seek + 0) (length T)); [lia | reflexivity].
Qed.

Lemma count_inside_eq (T : list Z) (itag : Z) (idx : nat) :
  count_inside T itag idx =
  if (idx + 1 + inside_run itag (skipn (idx + 1) T) <? length T)%nat
  then Returns (inside_run itag (skipn (idx + 1) T))
  else Raises IndexError.
Proof.
  unfold count_inside; rewrite seek_loop_eq by lia; reflexivity.
Qed.

Lemma count_inside_returns (T : list Z) (itag : Z) (idx len : nat) :
  count_inside T itag idx = Returns len ->
  len = inside_run itag (skipn (idx + 1) T) /\
  (idx + 1 + len < length T)%nat.
Proof.
  rewrite count_inside_eq.
  destruct (Nat.ltb_spec (idx + 1 + inside_run itag (skipn (idx + 1) T))
              (length T)) as [Hlt | Hge]; intros E; inversion E; subst; split;
    [reflexivity | assumption].
Qed.

(** ** The scan *)

(** One iteration of the outer loop, the three Begin branches read as
    one. *)
Lemma scan_loop_step (fuel : nat) (T M : list Z) (idx : nat) (t : tags) :
  scan_loop (S fuel) T M idx t =
  if (idx <? length T)%nat then
    m <- getitem M idx ;;
    if m =? 0 then scan_loop fuel T M (idx + 1) t
    else
      p <- getitem T idx ;;
      match category_of_begin p with
      | Some c =>
          len <- count_inside T (inside_tag c) idx ;;
          scan_loop fuel T M (idx + (len + 1)) (append_span c t (idx, len))
      | None => scan_loop fuel T M (idx + 1) t
      end
  else Returns t.
Proof.
  cbn [scan_loop].
  destruct (idx <? length T)%nat; [ | reflexivity].
  destruct (getitem M idx) as [m | e | ]; cbn [bind]; try reflexivity.
  destruct (m =? 0); [reflexivity | ].
  destruct (getitem T idx) as [p | e | ]; cbn [bind]; try reflexivity.
  unfold category_of_begin.
  destruct (p =? O_TAG) eqn:E6.
  - apply Z.eqb_eq in E6; subst p; reflexivity.
  - destruct (p =? B_PER); [reflexivity | ].
    destruct (p =? B_ORG); [reflexivity | ].
    destruct (p =? B_LOC); reflexivity.
Qed.

Lemma category_of_begin_some (p : Z) (c : category) :
  category_of_begin p = Some c <-> p = begin_tag c.
Proof.
  unfold category_of_begin.
  destruct (Z.eqb_spec p B_PER) as [-> | H0];
    [destruct c; simpl; split; intros H; try reflexivity; discriminate | ].
  destruct (Z.eqb_spec p B_ORG) as [-> | H2];
    [destruct c; simpl; split; intros H; try reflexivity; discriminate | ].
  destruct (Z.eqb_spec p B_LOC) as [-> | H4];
    [destruct c; simpl; split; intros H; try reflexivity; discriminate | ].
  split; [discriminate | ].
  intros ->; destruct c; contradiction.
Qed.

Lemma spans_of_append (c c' : category) (t : tags) (s s' : span) :
  In s (spans_of c (append_span c' t s')) <->
  In s (spans_of c t) \/ (c = c' /\ s = s').
Proof.
  destruct c, c'; simpl; rewrite ?in_app_iff; simpl;
    intuition (try discriminate; auto).
Qed.

Lemma all_spans_of (t : tags) (s : span) :
  In s (all_spans t) <-> exists c, In s (spans_of c t).
Proof.
  unfold all_spans; rewrite !in_app_iff; split.
  - intros [H | [H | H]]; [exists PER | exists LOC | exists ORG]; exact H.
  - intros [[ | | ] H]; simpl in H; auto.
Qed.

(** Case analysis of one iteration of a scan that returns. *)
Ltac scan_step H :=
  rewrite scan_loop_step in H;
  lazymatch type of H with
  | (if (?idx <? length ?T)%nat then bind (getitem ?M _) _ else _) = _ =>
  let Hlt := fresh "Hlt" in
  let m := fresh "m" in let Em := fresh "Em" in
  let Hm := fresh "Hm" in
  let p := fresh "p" in let Ep := fresh "Ep" in
  let c := fresh "c" in let Ec := fresh "Ec" in
  let len := fresh "len" in let El := fresh "El" in
  destruct (Nat.ltb_spec idx (length T)) as [Hlt | Hlt];
  [ destruct (getitem M idx) as [m | | ] eqn:Em; cbn [bind] in *;
    [ | discriminate H | discriminate H];
    destruct (Z.eqb_spec m 0) as [Hm | Hm];
    [ | destruct (getitem T idx) as [p | | ] eqn:Ep; cbn [bind] in *;
        [ | discriminate H | discriminate H];
        destruct (category_of_begin p) as [c | ] eqn:Ec;
        [ destruct (count_inside T (inside_tag c) idx) as [len | | ] eqn:El;
          cbn [bind] in *; [ | discriminate H | discriminate H] | ] ]
  | ]
  end.

(** Every span of the result was in the accumulator or is emitted at a
    position the scan had not passed. *)
Lemma scan_loop_emits (fuel : nat) (T M : list Z) :
  forall (idx : nat) (t out : tags),
  scan_loop fuel T M idx t = Returns out ->
  forall (c : category) (s : span),
  In s (spans_of c out) ->
  In s (spans_of c t) \/ (emitted T M c s /\ (idx <= fst s)%nat).
Proof.
  induction fuel as [ | fuel IH]; intros idx t out H k s Hin;
    [discriminate H | ].
  scan_step H.
  - destruct (IH _ _ _ H k s Hin) as [Ht | [He Hle]]; [left; exact Ht | ].
    right; split; [exact He | lia].
  - destruct (IH _ _ _ H k s Hin) as [Ht | [He Hle]].
    + apply spans_of_append in Ht.
      destruct Ht as [Ht | [-> ->]]; [left; exact Ht | ].
      right; split; [ | simpl; lia].
      apply count_inside_returns in El; destruct El as [El Hb].
      apply getitem_returns in Em, Ep.
      apply category_of_begin_some in Ec; subst p.
      repeat split; simpl; trivial.
      exists m; split; assumption.
    + right; split; [exact He | lia].
  - destruct (IH _ _ _ H k s Hin) as [Ht | [He Hle]]; [left; exact Ht | ].
    right; split; [exact He | lia].
  - inversion H; subst; left; exact Hin.
Qed.

(** The scan only appends. *)
Lemma scan_loop_keeps (fuel : nat) (T M : list Z) :
  forall (idx : nat) (t out : tags),
  scan_loop fuel T M idx t = Returns out ->
  forall (c : category) (s : span),
  In s (spans_of c t) -> In s (spans_of c out).
Proof.
  induction fuel as [ | fuel IH]; intros idx t out H k s Hin;
    [discriminate H | ].
  scan_step H; try (apply (IH _ _ _ H); exact Hin).
  - apply (IH _ _ _ H); apply spans_of_append; left; exact Hin.
  - inversion H; subst; exact Hin.
Qed.

(** The fuel of the entry point is enough. *)
Lemma count_inside_fuel (T : list Z) (itag : Z) (idx : nat) :
  count_inside T itag idx <> OutOfFuel.
Proof.
  rewrite count_inside_eq; destruct (_ <? _)%nat; discriminate.
Qed.

Lemma scan_loop_fuel (fuel : nat) (T M : list Z) :
  forall (idx : nat) (t : tags),
  (length T - idx < fuel)%nat ->
  scan_loop fuel T M idx t <> OutOfFuel.
Proof.
  induction fuel as [ | fuel IH]; intros idx t Hf; [lia | ].
  rewrite scan_loop_step.
  destruct (Nat.ltb_spec idx (length T)) as [Hlt | Hlt]; [ | discriminate].
  unfold getitem.
  destruct (nth_error M idx) as [m | ]; cbn [bind]; [ | discriminate].
  destruct (m =? 0); [apply IH; lia | ].
  destruct (nth_error T idx) as [p | ]; cbn [bind]; [ | discriminate].
  destruct (category_of_begin p) as [c | ]; [ | apply IH; lia].
  pose proof (count_inside_fuel T (inside_tag c) idx) as Hc.
  destruct (count_inside T (inside_tag c) idx) as [len | | ]; cbn [bind];
    [apply IH; lia | discriminate | contradiction].
Qed.

Lemma find_all_tags_fuel (T M : list Z) : find_all_tags T M <> OutOfFuel.
Proof. unfold find_all_tags; apply scan_loop_fuel; lia. Qed.

Lemma find_all_tags_emits (T M : list Z) (out : tags) (c : category)
    (s : span) :
  find_all_tags T M = Returns out -> In s (spans_of c out) -> emitted T M c s.
Proof.
  intros H Hin.
  destruct (scan_loop_emits _ _ _ _ _ _ H c s Hin) as [Ht | [He _]];
    [destruct c; contradiction | exact He].
Qed.

(** ** Slices and their comparison *)

Lemma slice_length (a : list Z) (lo hi : nat) :
  length (slice a lo hi) = Nat.min (hi - lo) (length a - lo).
Proof. unfold slice; rewrite length_firstn, length_skipn; reflexivity. Qed.

Lemma slice_nth (a : list Z) (lo hi k : nat) :
  nth_error (slice a lo hi) k =
  if (k <? hi - lo)%nat then nth_error a (lo + k) else None.
Proof.
  unfold slice; rewrite nth_error_firstn, nth_error_skipn; reflexivity.
Qed.

Lemma forallb_combine_eq (a : list Z) :
  forall b : list Z,
  length a = length b ->
  forallb (fun xy => fst xy =? snd xy) (combine a b) =
  if list_eq_dec Z.eq_dec a b then true else false.
Proof.
  induction a as [ | x a IH]; intros [ | y b] Hl; simpl in Hl;
    try discriminate.
  - simpl; destruct (list_eq_dec Z.eq_dec [] []); congruence.
  - cbn [combine forallb fst snd]; rewrite IH by lia.
    destruct (Z.eqb_spec x y) as [-> | Hxy];
      destruct (list_eq_dec Z.eq_dec a b) as [-> | Hab];
      destruct (list_eq_dec Z.eq_dec _ _) as [E | E];
      try reflexivity; congruence.
Qed.

Lemma span_matches_eq (P G : list Z) (s : span) :
  length P = length G ->
  span_matches P G s = Returns (slices_identical P G s).
Proof.
  intros Hl; unfold span_matches, eq_all, slices_identical.
  rewrite !slice_length, Hl, Nat.eqb_refl.
  rewrite forallb_combine_eq by (rewrite !slice_length, Hl; reflexivity).
  reflexivity.
Qed.

(** Slice equality read position by position. *)
Lemma slices_identical_iff (P G : list Z) (s : span) :
  length P = length G ->
  slices_identical P G s = true <->
  forall i : nat, in_extent s i -> nth_error P i = nth_error G i.
Proof.
  intros Hl; unfold slices_identical, in_extent.
  destruct (list_eq_dec Z.eq_dec _ _) as [E | E]; split; intros H;
    try reflexivity; try discriminate.
  - intros i Hi.
    assert (Hk := f_equal (fun l => nth_error l (i - fst s)) E).
    cbv beta in Hk; rewrite !slice_nth in Hk.
    destruct (Nat.ltb_spec (i - fst s) (fst s + snd s + 1 - fst s));
      [ | lia].
    replace (fst s + (i - fst s))%nat with i in Hk by lia; exact Hk.
  - exfalso; apply E, nth_error_ext; intros k; rewrite !slice_nth.
    destruct (Nat.ltb_spec k (fst s + snd s + 1 - fst s)); [ | reflexivity].
    apply H; lia.
Qed.

(** ** Scoring *)


Lemma sum_from (l : list Z) : forall z : Z, fold_left Z.add l z = z + sum l.
Proof.
  unfold sum; induction l as [ | x l IH]; intros z; simpl; [lia | ].
  rewrite IH, (IH x); lia.
Qed.

Lemma sum_app (l l' : list Z) : sum (l ++ l') = sum l + sum l'.
Proof. unfold sum at 1; rewrite fold_left_app, sum_from; reflexivity. Qed.

Lemma sum_cons (x : Z) (l : list Z) : sum (x :: l) = x + sum l.
Proof. unfold sum at 1; simpl; apply sum_from. Qed.

Lemma sum_indicator (P G : list Z) (spans : list span) :
  sum (map (indicator P G) spans) = Z.of_nat (exact_matches P G spans).
Proof.
  unfold exact_matches, indicator.
  induction spans as [ | s spans IH]; [reflexivity | ].
  cbn [map filter]; rewrite sum_cons, IH.
  destruct (slices_identical P G s); cbn [length]; lia.
Qed.

Lemma exact_matches_le (P G : list Z) (spans : list span) :
  (exact_matches P G spans <= length spans)%nat.
Proof. apply filter_length_le. Qed.

(** The entries of [pre] are 0 or 1, whatever the shapes of the slices. *)
Lemma score_spans_bits (P G : list Z) (spans : list span) :
  forall pre pre' : list Z,
  score_spans P G spans pre = Returns pre' ->
  Forall (fun b => b = 0 \/ b = 1) pre ->
  Forall (fun b => b = 0 \/ b = 1) pre'.
Proof.
  induction spans as [ | s spans IH]; intros pre pre' H Hp; simpl in H.
  - inversion H; subst; exact Hp.
  - destruct (span_matches P G s) as [b | | ]; cbn [bind] in H;
      try discriminate.
    apply (IH _ _ H), Forall_app; split; [exact Hp | ].
    constructor; [destruct b; auto | constructor].
Qed.

Lemma sum_bits (l : list Z) :
  Forall (fun b => b = 0 \/ b = 1) l -> 0 <= sum l <= Z.of_nat (length l).
Proof.
  induction 1 as [ | x l Hx _ IH]; [cbn; lia | ].
  rewrite sum_cons; cbn [length]; lia.
Qed.

(** With sequences of one length each span adds its indicator. *)
Lemma score_spans_eq (P G : list Z) (spans : list span) :
  length P = length G ->
  forall pre : list Z,
  score_spans P G spans pre = Returns (pre ++ map (indicator P G) spans).
Proof.
  intros Hl; induction spans as [ | s spans IH]; intros pre; simpl.
  - rewrite app_nil_r; reflexivity.
  - rewrite span_matches_eq by exact Hl; cbn [bind].
    rewrite IH, <- app_assoc; reflexivity.
Qed.

Lemma inject_Z_nonzero (z : Z) : z <> 0 -> Qeq_bool (inject_Z z) 0 = false.
Proof.
  intros Hz; destruct (Qeq_bool (inject_Z z) 0) eqn:E; [ | reflexivity].
  apply Qeq_bool_iff in E; unfold Qeq in E; simpl in E; lia.
Qed.

Lemma score_tags_eq (P G : list Z) (result : tags) :
  length P = length G ->
  score_tags P G result = Returns (match_ratio P G (all_spans result)).
Proof.
  intros Hl; unfold score_tags.
  rewrite score_spans_eq by exact Hl; cbn [bind app].
  rewrite score_spans_eq by exact Hl; cbn [bind].
  rewrite score_spans_eq by exact Hl; cbn [bind].
  rewrite <- app_assoc, <- !map_app, length_map; fold (all_spans result).
  unfold match_ratio.
  destruct (all_spans result) as [ | s spans] eqn:E; [reflexivity | ].
  cbn [length Nat.eqb]; unfold truediv.
  rewrite inject_Z_nonzero by lia.
  rewrite sum_indicator; reflexivity.
Qed.

(** A returned score is a ratio in [[0, 1]]. *)
Lemma score_tags_range (P G : list Z) (result : tags) (q : Q) :
  score_tags P G result = Returns q -> (0 <= q <= 1)%Q.
Proof.
  unfold score_tags; intros H.
  apply bind_returns in H; destruct H as [pre1 [H1 H]].
  apply bind_returns in H; destruct H as [pre2 [H2 H]].
  apply bind_returns in H; destruct H as [pre3 [H3 H]].
  assert (Hb : Forall (fun b => b = 0 \/ b = 1) pre3).
  { apply (score_spans_bits _ _ _ _ _ H3), (score_spans_bits _ _ _ _ _ H2),
      (score_spans_bits _ _ _ _ _ H1); constructor. }
  apply sum_bits in Hb.
  destruct (length pre3 =? 0)%nat eqn:E0.
  - inversion H; subst; split; [apply Qle_refl | discriminate].
  - apply Nat.eqb_neq in E0; unfold truediv in H.
    rewrite inject_Z_nonzero in H by lia.
    inversion H; subst; clear H.
    assert (Hpos : (0 < inject_Z (Z.of_nat (length pre3)))%Q)
      by (rewrite <- (Zlt_Qlt 0); lia).
    split.
    + apply Qle_shift_div_l; [exact Hpos | ].
      rewrite Qmult_0_l, <- (Zle_Qle 0); lia.
    + apply Qle_shift_div_r; [exact Hpos | ].
      rewrite Qmult_1_l, <- Zle_Qle; lia.
Qed.

Lemma inside_run_all (itag : Z) (l : list Z) :
  forall j : nat, (j < inside_run itag l)%nat -> nth_error l j = Some itag.
Proof.
  induction l as [ | x l IH]; intros j Hj; simpl in Hj; [lia | ].
  destruct (Z.eqb_spec x itag) as [-> | Hx]; [ | lia].
  destruct j as [ | j]; [reflexivity | ].
  simpl; apply IH; lia.
Qed.

Lemma inside_run_stop (itag : Z) (l : list Z) :
  nth_error l (inside_run itag l) <> Some itag.
Proof.
  induction l as [ | x l IH]; simpl; [discriminate | ].
  destruct (Z.eqb_spec x itag) as [-> | Hx]; [exact IH | ].
  simpl; congruence.
Qed.

(** A run that stops short of [n] is the maximal run. *)
Lemma inside_run_unique (itag : Z) (l : list Z) (n : nat) :
  (forall j : nat, (j < n)%nat -> nth_error l j = Some itag) ->
  nth_error l n <> Some itag ->
  inside_run itag l = n.
Proof.
  intros Hall Hstop.
  destruct (Nat.lt_trichotomy (inside_run itag l) n) as [Hlt | [Heq | Hgt]];
    [ | exact Heq | ].
  - exfalso; apply (inside_run_stop itag l), Hall, Hlt.
  - exfalso; apply Hstop, inside_run_all, Hgt.
Qed.

(** ** The span extractor at the end of the sequence *)

Section FinalBegin.

Variables (T M : list Z) (c : category) (m : Z).
Hypothesis equal_length : length M = length T.
Hypothesis unmasked : m <> 0.

Lemma scan_final_begin (fuel : nat) :
  forall (idx : nat) (t : tags),
  (idx <= length T)%nat ->
  (length (T ++ [begin_tag c]) - idx < fuel)%nat ->
  scan_loop fuel (T ++ [begin_tag c]) (M ++ [m]) idx t = Raises IndexError.
Proof.
  assert (HT : length (T ++ [begin_tag c]) = S (length T))
    by (rewrite length_app; simpl; lia).
  induction fuel as [ | fuel IH]; intros idx t Hi Hf; [lia | ].
  rewrite scan_loop_step.
  destruct (Nat.ltb_spec idx (length (T ++ [begin_tag c]))) as [_ | Hge];
    [ | lia].
  destruct (Nat.eq_dec idx (length T)) as [-> | Hne].
  - unfold getitem.
    rewrite <- equal_length at 1.
    rewrite !nth_error_app2, equal_length, Nat.sub_diag by lia.
    cbn [nth_error bind].
    destruct (Z.eqb_spec m 0) as [Hm | _]; [contradiction | ].
    rewrite (proj2 (category_of_begin_some _ c) eq_refl).
    rewrite count_inside_eq.
    destruct (Nat.ltb_spec
                (length T + 1 +
                 inside_run (inside_tag c)
                   (skipn (length T + 1) (T ++ [begin_tag c])))
                (length (T ++ [begin_tag c]))) as [Hlt | _];
      [lia | reflexivity].
  - destruct (getitem_in_range (M ++ [m]) idx) as [m0 Em];
      [rewrite length_app; simpl; lia | ].
    destruct (getitem_in_range (T ++ [begin_tag c]) idx) as [p Ep]; [lia | ].
    rewrite Em, Ep; cbn [bind].
    destruct (m0 =? 0); [apply IH; lia | ].
    destruct (category_of_begin p) as [k | ]; [ | apply IH; lia].
    rewrite count_inside_eq.
    destruct (Nat.ltb_spec
                (idx + 1 +
                 inside_run (inside_tag k)
                   (skipn (idx + 1) (T ++ [begin_tag c])))
                (length (T ++ [begin_tag c]))) as [Hlt | _];
      [ | reflexivity].
    cbn [bind]; apply IH; lia.
Qed.

End FinalBegin.

(** A sequence that ends in the Outside tag stops every lookahead before
    its end: extraction returns. *)

Lemma inside_run_before_last (itag x : Z) (l : list Z) :
  x <> itag -> (inside_run itag (l ++ [x]) <= length l)%nat.
Proof.
  intros Hx; induction l as [ | y l IH]; simpl.
  - destruct (Z.eqb_spec x itag); [contradiction | lia].
  - destruct (y =? itag); lia.
Qed.

Section FinalOutside.

Variables (T M : list Z) (m : Z).
Hypothesis equal_length : length M = length T.

Lemma scan_final_outside (fuel : nat) :
  forall (idx : nat) (t : tags),
  (idx <= length (T ++ [O_TAG]))%nat ->
  (length (T ++ [O_TAG]) - idx < fuel)%nat ->
  exists out : tags,
    scan_loop fuel (T ++ [O_TAG]) (M ++ [m]) idx t = Returns out.
Proof.
  assert (HT : length (T ++ [O_TAG]) = S (length T))
    by (rewrite length_app; simpl; lia).
  induction fuel as [ | fuel IH]; intros idx t Hi Hf; [lia | ].
  rewrite scan_loop_step.
  destruct (Nat.ltb_spec idx (length (T ++ [O_TAG]))) as [Hlt | Hge];
    [ | exists t; reflexivity].
  destruct (getitem_in_range (M ++ [m]) idx) as [m0 Em];
    [rewrite length_app; simpl; lia | ].
  destruct (getitem_in_range (T ++ [O_TAG]) idx) as [p Ep]; [lia | ].
  rewrite Em, Ep; cbn [bind].
  destruct (m0 =? 0); [apply IH; lia | ].
  destruct (category_of_begin p) as [k | ] eqn:Ek; [ | apply IH; lia].
  assert (Hidx : (idx < length T)%nat).
  { destruct (Nat.eq_dec idx (length T)) as [-> | Hne]; [ | lia].
    apply getitem_returns in Ep.
    rewrite nth_error_app2, Nat.sub_diag in Ep by lia.
    inversion Ep; subst p; discriminate Ek. }
  rewrite count_inside_eq, skipn_app.
  replace (idx + 1 - length T)%nat with O by lia; cbn [skipn].
  pose proof (inside_run_before_last (inside_tag k) O_TAG
                (skipn (idx + 1) T)) as Hrun.
  rewrite length_skipn in Hrun.
  destruct (Nat.ltb_spec
              (idx + 1 +
               inside_run (inside_tag k) (skipn (idx + 1) T ++ [O_TAG]))
              (length (T ++ [O_TAG]))) as [Hb | Hb].
  - cbn [bind]; apply IH; lia.
  - exfalso; assert (O_TAG <> inside_tag k) by (destruct k; discriminate).
    specialize (Hrun H); lia.
Qed.

Lemma find_all_tags_final_outside_returns :
  exists out : tags,
    find_all_tags (T ++ [O_TAG]) (M ++ [m]) = Returns out.
Proof. unfold find_all_tags; apply scan_final_outside; lia. Qed.

End FinalOutside.

Lemma exact_matches_all (P G : list Z) (spans : list span) :
  (forall s : span, In s spans -> slices_identical P G s = true) ->
  exact_matches P G spans = length spans.
Proof.
  unfold exact_matches; induction spans as [ | s spans IH]; intros H;
    [reflexivity | ].
  cbn [filter]; rewrite (H s (or_introl eq_refl)); cbn [length].
  rewrite IH; [reflexivity | intros s' Hs'; apply H; right; exact Hs'].
Qed.

Lemma exact_matches_lt (P G : list Z) (spans : list span) (s : span) :
  In s spans -> slices_identical P G s = false ->
  (exact_matches P G spans < length spans)%nat.
Proof.
  unfold exact_matches; induction spans as [ | s' spans IH]; intros Hin Hs;
    [destruct Hin | ].
  cbn [filter length]; destruct Hin as [-> | Hin].
  - rewrite Hs; pose proof (filter_length_le (slices_identical P G) spans).
    lia.
  - specialize (IH Hin Hs).
    destruct (slices_identical P G s'); cbn [length]; lia.
Qed.

Lemma match_ratio_one (P G : list Z) (spans : list span) :
  spans <> [] ->
  (forall s : span, In s spans -> slices_identical P G s = true) ->
  match_ratio P G spans == 1.
Proof.
  intros Hne Hall; unfold match_ratio.
  destruct spans as [ | s spans]; [contradiction | ].
  rewrite (exact_matches_all _ _ _ Hall).
  apply Qmult_inv_r; intros E.
  unfold Qeq in E; cbn [Qnum Qden inject_Z length] in E; lia.
Qed.

Lemma match_ratio_lt_one (P G : list Z) (spans : list span) (s : span) :
  In s spans -> slices_identical P G s = false ->
  (match_ratio P G spans < 1)%Q.
Proof.
  intros Hin Hs; pose proof (exact_matches_lt _ _ _ _ Hin Hs) as Hlt.
  unfold match_ratio; destruct spans as [ | s' spans]; [destruct Hin | ].
  apply Qlt_shift_div_r.
  - rewrite <- (Zlt_Qlt 0); cbn [length]; lia.
  - rewrite Qmult_1_l, <- Zlt_Qlt; lia.
Qed.

Lemma int32_id (z : Z) : - 2 ^ 31 <= z < 2 ^ 31 -> int32 z = z.
Proof.
  intros Hz; unfold int32.
  change (2 ^ 32) with 4294967296; change (2 ^ 31) with 2147483648 in *.
  rewrite Z.mod_small; lia.
Qed.

Lemma astype_int32_id (a : list Z) : int32_array a -> astype_int32 a = a.
Proof.
  unfold astype_int32; induction 1 as [ | z a Hz _ IH]; [reflexivity | ].
  cbn [map]; rewrite int32_id, IH by exact Hz; reflexivity.
Qed.

Lemma harmonic_mean_one (p r : Q) :
  p == 1 -> r == 1 ->
  exists f : Q,
    (if Qeq_bool p 0 && Qeq_bool r 0 then Returns 0%Q
     else truediv (2 * p * r) (p + r)) = Returns f /\ f == 1.
Proof.
  intros Hp Hr.
  destruct (Qeq_bool p 0) eqn:Ep;
    [apply Qeq_bool_iff in Ep; exfalso; lra | cbn [andb]].
  unfold truediv.
  destruct (Qeq_bool (p + r) 0) eqn:E;
    [apply Qeq_bool_iff in E; exfalso; lra | ].
  exists (2 * p * r / (p + r))%Q; split; [reflexivity | ].
  rewrite Hp, Hr; reflexivity.
Qed.

(** ** Predictions that reproduce the gold sequence *)

(** Two sequences that agree where the mask is set and on the extent of
    every span extracted from either of them are scanned in lockstep. *)
Lemma scan_loop_sync (fuel : nat) (P G M : list Z) :
  length P = length G ->
  (forall (i : nat) (m : Z),
     nth_error M i = Some m -> m <> 0 -> nth_error P i = nth_error G i) ->
  forall (idx : nat) (t tp tg : tags),
  scan_loop fuel P M idx t = Returns tp ->
  scan_loop fuel G M idx t = Returns tg ->
  (forall (s : span) (i : nat),
     In s (all_spans tp) \/ In s (all_spans tg) ->
     in_extent s i -> nth_error P i = nth_error G i) ->
  tg = tp.
Proof.
  intros Hl Hmask.
  induction fuel as [ | fuel IH]; intros idx t tp tg HP HG Hext;
    [discriminate HP | ].
  rewrite scan_loop_step in HG; rewrite <- Hl in HG.
  assert (Hidx : forall m : Z,
             getitem M idx = Returns m -> m <> 0 ->
             getitem G idx = getitem P idx).
  { intros m Em Hm; apply getitem_returns in Em.
    unfold getitem; rewrite (Hmask idx m Em Hm); reflexivity. }
  scan_step HP.
  - exact (IH _ _ _ _ HP HG Hext).
  - rewrite (Hidx m eq_refl Hm) in HG; cbn [bind] in HG.
    rewrite Ec in HG.
    destruct (count_inside G (inside_tag c) idx) as [lg | | ] eqn:Eg;
      cbn [bind] in HG; try discriminate HG.
    assert (Hsame : lg = len).
    { assert (HinP : In (idx, len) (all_spans tp)).
      { apply all_spans_of; exists c; apply (scan_loop_keeps _ _ _ _ _ _ HP).
        apply spans_of_append; right; split; reflexivity. }
      assert (HinG : In (idx, lg) (all_spans tg)).
      { apply all_spans_of; exists c; apply (scan_loop_keeps _ _ _ _ _ _ HG).
        apply spans_of_append; right; split; reflexivity. }
      apply count_inside_returns in El, Eg.
      destruct El as [El _]; destruct Eg as [Eg _].
      destruct (Nat.lt_trichotomy lg len) as [Hlt' | [Heq | Hgt]];
        [exfalso | exact Heq | exfalso].
      - apply (inside_run_stop (inside_tag c) (skipn (idx + 1) G)).
        rewrite <- Eg, nth_error_skipn.
        rewrite <- (Hext (idx, len) (idx + 1 + lg)%nat (or_introl HinP))
          by (unfold in_extent; simpl; lia).
        rewrite <- nth_error_skipn; apply inside_run_all; lia.
      - apply (inside_run_stop (inside_tag c) (skipn (idx + 1) P)).
        rewrite <- El, nth_error_skipn.
        rewrite (Hext (idx, lg) (idx + 1 + len)%nat (or_intror HinG))
          by (unfold in_extent; simpl; lia).
        rewrite <- nth_error_skipn; apply inside_run_all; lia. }
    subst lg; exact (IH _ _ _ _ HP HG Hext).
  - rewrite (Hidx m eq_refl Hm) in HG; cbn [bind] in HG.
    rewrite Ec in HG.
    exact (IH _ _ _ _ HP HG Hext).
  - inversion HP; inversion HG; subst; reflexivity.
Qed.

(** ** No entry point runs out of fuel *)

Lemma score_spans_fuel (P G : list Z) (spans : list span) :
  forall pre : list Z, score_spans P G spans pre <> OutOfFuel.
Proof.
  induction spans as [ | s spans IH]; intros pre; simpl; [discriminate | ].
  unfold span_matches, eq_all.
  repeat (destruct (_ =? _)%nat; cbn [bind]; try apply IH);
    discriminate.
Qed.

Lemma score_tags_fuel (P G : list Z) (result : tags) :
  score_tags P G result <> OutOfFuel.
Proof.
  unfold score_tags.
  pose proof (score_spans_fuel P G (per result) []) as H1.
  destruct (score_spans P G (per result) []) as [pre1 | | ]; cbn [bind];
    [ | discriminate | contradiction].
  pose proof (score_spans_fuel P G (loc result) pre1) as H2.
  destruct (score_spans P G (loc result) pre1) as [pre2 | | ]; cbn [bind];
    [ | discriminate | contradiction].
  pose proof (score_spans_fuel P G (org result) pre2) as H3.
  destruct (score_spans P G (org result) pre2) as [pre3 | | ]; cbn [bind];
    [ | discriminate | contradiction].
  unfold truediv.
  destruct (length pre3 =? 0)%nat; [discriminate | ].
  destruct (Qeq_bool _ _); discriminate.
Qed.

Lemma precision_fuel (P G M : list Z) : precision P G M <> OutOfFuel.
Proof.
  unfold precision; pose proof (find_all_tags_fuel P M) as H.
  destruct (find_all_tags P M); cbn [bind];
    [apply score_tags_fuel | discriminate | contradiction].
Qed.

Lemma recall_fuel (P G M : list Z) : recall P G M <> OutOfFuel.
Proof.
  unfold recall; pose proof (find_all_tags_fuel G M) as H.
  destruct (find_all_tags G M); cbn [bind];
    [apply score_tags_fuel | discriminate | contradiction].
Qed.

Lemma compute_f1_fuel (P G M : list Z) : compute_f1 P G M <> OutOfFuel.
Proof.
  unfold compute_f1.
  pose proof (precision_fuel (astype_int32 P) (astype_int32 G)
                (astype_int32 M)) as Hp.
  destruct (precision _ _ _) as [p | | ]; cbn [bind];
    [ | discriminate | contradiction].
  pose proof (recall_fuel (astype_int32 P) (astype_int32 G)
                (astype_int32 M)) as Hr.
  destruct (recall _ _ _) as [r | | ]; cbn [bind];
    [ | discriminate | contradiction].
  unfold truediv.
  destruct (Qeq_bool p 0 && Qeq_bool r 0); [discriminate | ].
  destruct (Qeq_bool _ _); discriminate.
Qed.

(** * The stated properties *)

(** ** The span extractor *)

(** C5. On the tags [[0, 1, 6, 2, 6]] under the mask [[1, 1, 1, 1, 1]] the
    extractor returns one person span at 0 with one continuation tag, one
    organization span at 3 with no continuation tag, and no location
    span. *)
Theorem find_all_tags_person_then_organization :
  find_all_tags [0; 1; 6; 2; 6] [1; 1; 1; 1; 1] =
  Returns {| per := [(0, 1)%nat]; loc := []; org := [(3, 0)%nat] |}.
Proof. reflexivity. Qed.

(** C4. The lookahead of the source is not bounded by the length of the
    sequence: whenever the final position holds an unmasked Begin tag,
    extraction raises [IndexError] instead of emitting a span of
    continuation length 0, whatever the tags and the mask before it. *)
Theorem find_all_tags_final_begin_raises (T M : list Z) (c : category)
    (m : Z) :
  length M = length T ->
  m <> 0 ->
  find_all_tags (T ++ [begin_tag c]) (M ++ [m]) = Raises IndexError.
Proof.
  intros Hl Hm; unfold find_all_tags.
  apply scan_final_begin; [exact Hl | exact Hm | lia | lia].
Qed.

Lemma find_all_tags_final_begin_raises_witness :
  in_vocabulary [0] /\ length [0] = length [1] /\
  find_all_tags [0] [1] = Raises IndexError.
Proof.
  split; [repeat constructor; discriminate | split; [reflexivity | ]].
  apply (find_all_tags_final_begin_raises [] [] PER 1);
    [reflexivity | discriminate].
Defined.

(** The fault propagates out of the scoring functions. *)
Lemma scoring_final_begin_raises :
  precision [0] [0] [1] = Raises IndexError /\
  recall [0] [0] [1] = Raises IndexError /\
  compute_f1 [0] [0] [1] = Raises IndexError.
Proof. repeat split. Qed.

(** C6. The continuation length of every emitted span is the length of the
    maximal run of the matching Inside tag from the position after the
    start: the positions of the run all hold that tag, the position after
    the run does not, and the run lies inside the sequence. *)
Theorem emitted_length_is_maximal_run (T M : list Z) (out : tags)
    (c : category) (s : span) :
  find_all_tags T M = Returns out ->
  In s (spans_of c out) ->
  snd s = inside_run (inside_tag c) (skipn (fst s + 1) T) /\
  (forall j : nat, in_continuation s j ->
     nth_error T j = Some (inside_tag c)) /\
  nth_error T (fst s + snd s + 1) <> Some (inside_tag c) /\
  (fst s + snd s < length T)%nat.
Proof.
  intros H Hin.
  destruct (find_all_tags_emits _ _ _ _ _ H Hin) as (_ & _ & Hrun & Hb).
  split; [exact Hrun | ].
  split; [ | split; [ | lia]].
  - intros j [Hlo Hhi].
    replace j with (fst s + 1 + (j - (fst s + 1)))%nat by lia.
    rewrite <- nth_error_skipn; apply inside_run_all; lia.
  - replace (fst s + snd s + 1)%nat with (fst s + 1 + snd s)%nat by lia.
    rewrite <- nth_error_skipn, Hrun; apply inside_run_stop.
Qed.

Lemma emitted_length_is_maximal_run_witness :
  snd (0, 1)%nat = inside_run (inside_tag PER) (skipn 1 [0; 1; 6; 2; 6]) /\
  (forall j : nat, in_continuation (0, 1)%nat j ->
     nth_error [0; 1; 6; 2; 6] j = Some (inside_tag PER)) /\
  nth_error [0; 1; 6; 2; 6] 2 <> Some (inside_tag PER) /\
  (0 + 1 < 5)%nat.
Proof.
  apply (emitted_length_is_maximal_run [0; 1; 6; 2; 6] [1; 1; 1; 1; 1]
           (mk_tags [(0, 1)%nat] [] [(3, 0)%nat]) PER (0, 1)%nat);
    [reflexivity | simpl; left; reflexivity].
Defined.

(** C9. No emitted span starts at a position whose mask bit is 0: the start
    of every emitted span is a Begin tag at a position whose mask bit is
    present and not 0. *)
Theorem emitted_start_is_unmasked (T M : list Z) (out : tags)
    (c : category) (s : span) :
  find_all_tags T M = Returns out ->
  In s (spans_of c out) ->
  nth_error M (fst s) <> Some 0 /\
  (exists m : Z, nth_error M (fst s) = Some m /\ m <> 0) /\
  nth_error T (fst s) = Some (begin_tag c).
Proof.
  intros H Hin.
  destruct (find_all_tags_emits _ _ _ _ _ H Hin)
    as ((m & Em & Hm) & Hb & _ & _).
  split; [rewrite Em; congruence | ].
  split; [exists m; split; assumption | exact Hb].
Qed.

Lemma emitted_start_is_unmasked_witness :
  nth_error [0; 1; 1; 6] 2 <> Some 0 /\
  (exists m : Z, nth_error [0; 1; 1; 6] 2 = Some m /\ m <> 0) /\
  nth_error [0; 6; 2; 6] 2 = Some (begin_tag ORG).
Proof.
  apply (emitted_start_is_unmasked [0; 6; 2; 6] [0; 1; 1; 6]
           (mk_tags [] [] [(2, 0)%nat]) ORG (2, 0)%nat);
    [reflexivity | simpl; left; reflexivity].
Defined.

(** ** The metric evaluator *)

(** C1. For a predicted and a gold sequence of one length, when extraction
    from the predictions returns a collection: [precision] returns the
    number of its spans whose slice of the predictions is identical to the
    same slice of the gold sequence, divided by the number of its spans
    over the three categories; and it returns 0, without failing, when the
    collection is empty. *)
Theorem precision_is_exact_match_ratio (P G M : list Z) (result : tags) :
  length P = length G ->
  find_all_tags P M = Returns result ->
  (all_spans result = [] -> precision P G M = Returns 0%Q) /\
  (all_spans result <> [] ->
   precision P G M =
   Returns (inject_Z (Z.of_nat (exact_matches P G (all_spans result)))
            / inject_Z (Z.of_nat (length (all_spans result))))%Q).
Proof.
  intros Hl H; unfold precision; rewrite H; cbn [bind].
  rewrite score_tags_eq by exact Hl; unfold match_ratio.
  destruct (all_spans result); split; intros E; congruence.
Qed.

Lemma precision_is_exact_match_ratio_witness :
  precision [0; 1; 6; 2; 6] [0; 1; 6; 6; 6] [1; 1; 1; 1; 1] =
  Returns (inject_Z 1 / inject_Z 2)%Q.
Proof.
  apply (proj2 (precision_is_exact_match_ratio
                  [0; 1; 6; 2; 6] [0; 1; 6; 6; 6] [1; 1; 1; 1; 1]
                  (mk_tags [(0, 1)%nat] [] [(3, 0)%nat])
                  eq_refl eq_refl)).
  discriminate.
Defined.

(** C2. [recall] walks the spans extracted from the gold sequence, not from
    the predictions: when that extraction returns a collection, [recall]
    returns the number of gold spans whose slice of the predictions is
    identical to the same slice of the gold sequence, divided by the number
    of gold spans; and it returns 0 when the collection is empty. *)
Theorem recall_is_exact_match_ratio (P G M : list Z) (result : tags) :
  length P = length G ->
  find_all_tags G M = Returns result ->
  (all_spans result = [] -> recall P G M = Returns 0%Q) /\
  (all_spans result <> [] ->
   recall P G M =
   Returns (inject_Z (Z.of_nat (exact_matches P G (all_spans result)))
            / inject_Z (Z.of_nat (length (all_spans result))))%Q).
Proof.
  intros Hl H; unfold recall; rewrite H; cbn [bind].
  rewrite score_tags_eq by exact Hl; unfold match_ratio.
  destruct (all_spans result); split; intros E; congruence.
Qed.

Lemma recall_is_exact_match_ratio_witness :
  recall [0; 6; 6; 2; 6] [0; 1; 6; 2; 6] [1; 1; 1; 1; 1] =
  Returns (inject_Z 1 / inject_Z 2)%Q.
Proof.
  apply (proj2 (recall_is_exact_match_ratio
                  [0; 6; 6; 2; 6] [0; 1; 6; 2; 6] [1; 1; 1; 1; 1]
                  (mk_tags [(0, 1)%nat] [] [(3, 0)%nat])
                  eq_refl eq_refl)).
  discriminate.
Defined.

Lemma precision_range (P G M : list Z) (p : Q) :
  precision P G M = Returns p -> (0 <= p <= 1)%Q.
Proof.
  unfold precision; intros H.
  apply bind_returns in H; destruct H as [result [_ H]].
  exact (score_tags_range _ _ _ _ H).
Qed.

Lemma recall_range (P G M : list Z) (r : Q) :
  recall P G M = Returns r -> (0 <= r <= 1)%Q.
Proof.
  unfold recall; intros H.
  apply bind_returns in H; destruct H as [result [_ H]].
  exact (score_tags_range _ _ _ _ H).
Qed.

(** C3. With [p] and [r] the values [precision] and [recall] return on the
    converted arrays: [compute_f1] returns 0 when both are 0, by the test
    that precedes the division; otherwise the divisor [p + r] is not 0, so
    that no [ZeroDivisionError] is raised, and it returns
    [2 * p * r / (p + r)]. *)
Theorem compute_f1_checks_zero_before_dividing (P G M : list Z) (p r : Q) :
  precision (astype_int32 P) (astype_int32 G) (astype_int32 M) = Returns p ->
  recall (astype_int32 P) (astype_int32 G) (astype_int32 M) = Returns r ->
  (p == 0 /\ r == 0 -> compute_f1 P G M = Returns 0%Q) /\
  (~ (p == 0 /\ r == 0) ->
   ~ p + r == 0 /\
   compute_f1 P G M = Returns (2 * p * r / (p + r))%Q).
Proof.
  intros Hp Hr; unfold compute_f1; rewrite Hp, Hr; cbn [bind].
  apply precision_range in Hp; apply recall_range in Hr.
  assert (Hdiv : ~ p + r == 0 ->
                 truediv (2 * p * r) (p + r) = Returns (2 * p * r / (p + r))%Q).
  { intros Hsum; unfold truediv.
    destruct (Qeq_bool (p + r) 0) eqn:E; [ | reflexivity].
    apply Qeq_bool_iff in E; contradiction. }
  destruct (Qeq_bool p 0) eqn:Ep0; destruct (Qeq_bool r 0) eqn:Er0;
    cbn [andb].
  - apply Qeq_bool_iff in Ep0, Er0.
    split; [reflexivity | intros Hn; exfalso; apply Hn; split; assumption].
  - apply Qeq_bool_neq in Er0.
    split; [intros [_ Hr0]; contradiction | intros _].
    assert (Hsum : ~ p + r == 0) by (intros E; lra).
    split; [exact Hsum | exact (Hdiv Hsum)].
  - apply Qeq_bool_neq in Ep0.
    split; [intros [Hp0 _]; contradiction | intros _].
    assert (Hsum : ~ p + r == 0) by (intros E; lra).
    split; [exact Hsum | exact (Hdiv Hsum)].
  - apply Qeq_bool_neq in Ep0.
    split; [intros [Hp0 _]; contradiction | intros _].
    assert (Hsum : ~ p + r == 0) by (intros E; lra).
    split; [exact Hsum | exact (Hdiv Hsum)].
Qed.

Lemma compute_f1_checks_zero_before_dividing_witness :
  compute_f1 [0; 1; 6] [0; 1; 6] [1; 1; 1] =
  Returns (2 * (inject_Z 1 / inject_Z 1) * (inject_Z 1 / inject_Z 1)
           / (inject_Z 1 / inject_Z 1 + inject_Z 1 / inject_Z 1))%Q.
Proof.
  apply (proj2 (compute_f1_checks_zero_before_dividing
                  [0; 1; 6] [0; 1; 6] [1; 1; 1]
                  (inject_Z 1 / inject_Z 1)%Q (inject_Z 1 / inject_Z 1)%Q
                  eq_refl eq_refl)).
  intros [H _]; discriminate H.
Defined.

(** ** The mask and the lookahead *)

Lemma scan_loop_mask (fuel : nat) (T M1 M2 : list Z) :
  forall (idx : nat) (t out : tags),
  scan_loop fuel T M1 idx t = Returns out ->
  (forall s : span, In s (all_spans t) -> (fst s + snd s < idx)%nat) ->
  (forall i : nat,
     (idx <= i)%nat ->
     (forall s : span, In s (all_spans out) -> ~ in_continuation s i) ->
     nth_error M1 i = nth_error M2 i) ->
  scan_loop fuel T M2 idx t = Returns out.
Proof.
  induction fuel as [ | fuel IH]; intros idx t out H Ht Hagree;
    [discriminate H | ].
  assert (Hidx : getitem M2 idx = getitem M1 idx).
  { unfold getitem; rewrite (Hagree idx); [reflexivity | lia | ].
    intros s Hs [Hlo Hhi].
    apply all_spans_of in Hs; destruct Hs as [k Hs].
    destruct (scan_loop_emits _ _ _ _ _ _ H k s Hs) as [Hin | [_ Hle]];
      [ | lia].
    assert (Hall : In s (all_spans t))
      by (apply all_spans_of; exists k; exact Hin).
    specialize (Ht s Hall); lia. }
  rewrite scan_loop_step, Hidx.
  scan_step H.
  - apply (IH _ _ _ H).
    + intros s Hs; specialize (Ht s Hs); lia.
    + intros i Hi; apply Hagree; lia.
  - apply (IH _ _ _ H).
    + intros s Hs; apply all_spans_of in Hs; destruct Hs as [k Hs].
      apply spans_of_append in Hs; destruct Hs as [Hs | [_ ->]];
        [ | simpl; lia].
      assert (Hall : In s (all_spans t))
        by (apply all_spans_of; exists k; exact Hs).
      specialize (Ht s Hall); lia.
    + intros i Hi; apply Hagree; lia.
  - apply (IH _ _ _ H).
    + intros s Hs; specialize (Ht s Hs); lia.
    + intros i Hi; apply Hagree; lia.
  - exact H.
Qed.

(** C7. The lookahead never reads the mask: two masks that agree at every
    position that is not strictly inside the continuation run of a span the
    extractor emits yield the same span collection. *)
Theorem lookahead_ignores_mask (T M1 M2 : list Z) (out : tags) :
  find_all_tags T M1 = Returns out ->
  (forall i : nat,
     (forall s : span, In s (all_spans out) -> ~ in_continuation s i) ->
     nth_error M1 i = nth_error M2 i) ->
  find_all_tags T M2 = Returns out.
Proof.
  intros H Hagree; unfold find_all_tags in *.
  apply (scan_loop_mask _ _ _ _ _ _ _ H).
  - intros s Hs; destruct Hs.
  - intros i _; apply Hagree.
Qed.

Lemma lookahead_ignores_mask_witness :
  find_all_tags [0; 1; 1; 6] [1; 0; 0; 1] =
  Returns (mk_tags [(0, 2)%nat] [] []).
Proof.
  apply (lookahead_ignores_mask [0; 1; 1; 6] [1; 1; 1; 1] [1; 0; 0; 1]
           (mk_tags [(0, 2)%nat] [] []) eq_refl).
  intros i Hi.
  assert (Hrun : in_continuation (0, 2)%nat i -> False)
    by (apply Hi; simpl; left; reflexivity).
  unfold in_continuation in Hrun; simpl in Hrun.
  destruct i as [ | [ | [ | [ | i]]]]; try reflexivity; exfalso; apply Hrun;
    lia.
Defined.

(** ** Exact matching and masked positions *)

(** C10. The test of [precision] and [recall] holds exactly when the two
    sequences agree at every position of the extent of the span, and the
    mask takes no part in it: a disagreement at a position of the extent
    whose mask bit is 0 makes the test fail, so that a predicted span with
    such a position keeps [precision] below 1 and a gold span with such a
    position keeps [recall] below 1. *)
Theorem span_test_covers_masked_positions (P G M : list Z) (s : span) :
  length P = length G ->
  (span_matches P G s = Returns true <->
   forall i : nat, in_extent s i -> nth_error P i = nth_error G i) /\
  (forall i : nat,
     in_extent s i ->
     nth_error M i = Some 0 ->
     nth_error P i <> nth_error G i ->
     span_matches P G s = Returns false /\
     (forall result : tags,
        find_all_tags P M = Returns result -> In s (all_spans result) ->
        exists q : Q, precision P G M = Returns q /\ (q < 1)%Q) /\
     (forall result : tags,
        find_all_tags G M = Returns result -> In s (all_spans result) ->
        exists q : Q, recall P G M = Returns q /\ (q < 1)%Q)).
Proof.
  intros Hl; rewrite span_matches_eq by exact Hl; split.
  - rewrite <- (slices_identical_iff P G s Hl).
    split; [intros H; inversion H; reflexivity | intros ->; reflexivity].
  - intros i Hi _ Hne.
    assert (Hs : slices_identical P G s = false).
    { destruct (slices_identical P G s) eqn:E; [ | reflexivity].
      exfalso; apply Hne.
      exact (proj1 (slices_identical_iff P G s Hl) E i Hi). }
    rewrite Hs; split; [reflexivity | split]; intros result H Hin.
    + exists (match_ratio P G (all_spans result)); split.
      * unfold precision; rewrite H; cbn [bind]; apply score_tags_eq, Hl.
      * exact (match_ratio_lt_one _ _ _ _ Hin Hs).
    + exists (match_ratio P G (all_spans result)); split.
      * unfold recall; rewrite H; cbn [bind]; apply score_tags_eq, Hl.
      * exact (match_ratio_lt_one _ _ _ _ Hin Hs).
Qed.

Lemma span_test_covers_masked_positions_witness :
  span_matches [0; 1; 6] [0; 5; 6] (0, 1)%nat = Returns false /\
  exists q : Q,
    precision [0; 1; 6] [0; 5; 6] [1; 0; 1] = Returns q /\ (q < 1)%Q.
Proof.
  destruct (proj2 (span_test_covers_masked_positions
                     [0; 1; 6] [0; 5; 6] [1; 0; 1] (0, 1)%nat eq_refl)
              1%nat) as [Htest [Hprec _]].
  - unfold in_extent; simpl; lia.
  - reflexivity.
  - simpl; congruence.
  - split; [exact Htest | ].
    apply (Hprec (mk_tags [(0, 1)%nat] [] []));
      [reflexivity | simpl; left; reflexivity].
Defined.

(** C8, as stated, fails: the predictions [[0, 1, 6]] equal the gold
    sequence [[0, 5, 6]] at every position the mask [[1, 0, 1]] keeps and a
    span is extracted, yet [precision] and F1 are 0, because the extent of
    the predicted span covers the masked position 1. *)
Lemma exact_reproduction_counterexample :
  (forall (i : nat) (m : Z),
     nth_error [1; 0; 1] i = Some m -> m <> 0 ->
     nth_error [0; 1; 6] i = nth_error [0; 5; 6] i) /\
  find_all_tags [0; 1; 6] [1; 0; 1] = Returns (mk_tags [(0, 1)%nat] [] []) /\
  precision [0; 1; 6] [0; 5; 6] [1; 0; 1] = Returns 0%Q /\
  compute_f1 [0; 1; 6] [0; 5; 6] [1; 0; 1] = Returns 0%Q.
Proof.
  split; [ | repeat split].
  intros [ | [ | [ | i]]] m Hm Hne; simpl in *; try reflexivity.
  congruence.
Qed.

(** C8, amended. When the predictions equal the gold sequence at every
    position the mask keeps and at every position of the extent of every
    span extracted from either sequence, extraction returns for both, and
    at least one span is extracted, then [precision], [recall] and F1 are
    all 1. *)
Theorem exact_reproduction_scores_one (P G M : list Z) (tp tg : tags) :
  length P = length G ->
  int32_array P -> int32_array G -> int32_array M ->
  find_all_tags P M = Returns tp ->
  find_all_tags G M = Returns tg ->
  (forall (i : nat) (m : Z),
     nth_error M i = Some m -> m <> 0 -> nth_error P i = nth_error G i) ->
  (forall (s : span) (i : nat),
     In s (all_spans tp) \/ In s (all_spans tg) ->
     in_extent s i -> nth_error P i = nth_error G i) ->
  all_spans tp <> [] ->
  exists p r f : Q,
    precision P G M = Returns p /\ p == 1 /\
    recall P G M = Returns r /\ r == 1 /\
    compute_f1 P G M = Returns f /\ f == 1.
Proof.
  intros Hl HP32 HG32 HM32 HP HG Hmask Hext Hne.
  assert (Heq : tg = tp).
  { pose proof HG as HG'; unfold find_all_tags in HG'; rewrite <- Hl in HG'.
    exact (scan_loop_sync _ _ _ _ Hl Hmask _ _ _ _ HP HG' Hext). }
  subst tg.
  assert (Hall : forall s : span,
             In s (all_spans tp) -> slices_identical P G s = true).
  { intros s Hs; apply (slices_identical_iff P G s Hl).
    intros i Hi; exact (Hext s i (or_introl Hs) Hi). }
  pose proof (match_ratio_one P G _ Hne Hall) as Hone.
  assert (Hp : precision P G M = Returns (match_ratio P G (all_spans tp)))
    by (unfold precision; rewrite HP; cbn [bind]; apply score_tags_eq, Hl).
  assert (Hr : recall P G M = Returns (match_ratio P G (all_spans tp)))
    by (unfold recall; rewrite HG; cbn [bind]; apply score_tags_eq, Hl).
  destruct (harmonic_mean_one _ _ Hone Hone) as [f [Hf Hf1]].
  exists (match_ratio P G (all_spans tp)), (match_ratio P G (all_spans tp)), f.
  repeat split; try assumption.
  unfold compute_f1.
  rewrite !astype_int32_id by assumption.
  rewrite Hp, Hr; cbn [bind]; exact Hf.
Qed.

Lemma exact_reproduction_scores_one_witness :
  exists p r f : Q,
    precision [0; 1; 6; 2] [0; 1; 6; 4] [1; 1; 1; 0] = Returns p /\ p == 1 /\
    recall [0; 1; 6; 2] [0; 1; 6; 4] [1; 1; 1; 0] = Returns r /\ r == 1 /\
    compute_f1 [0; 1; 6; 2] [0; 1; 6; 4] [1; 1; 1; 0] = Returns f /\ f == 1.
Proof.
  apply (exact_reproduction_scores_one
           [0; 1; 6; 2] [0; 1; 6; 4] [1; 1; 1; 0]
           (mk_tags [(0, 1)%nat] [] []) (mk_tags [(0, 1)%nat] [] [])).
  - reflexivity.
  - repeat constructor; discriminate.
  - repeat constructor; discriminate.
  - repeat constructor; discriminate.
  - reflexivity.
  - reflexivity.
  - intros [ | [ | [ | [ | i]]]] m Hm Hne; simpl in *; try reflexivity.
    congruence.
  - intros s i [[<- | []] | [<- | []]] [Hlo Hhi]; simpl in *;
      (destruct i as [ | [ | i]]; [reflexivity | reflexivity | lia]).
  - discriminate.
Defined.

(** * Further properties of the span extractor *)

Lemma begin_not_inside (c k : category) : begin_tag c <> inside_tag k.
Proof. destruct c, k; discriminate. Qed.

(** The scan passes no unmasked Begin tag without emitting its span. *)
Lemma scan_loop_complete (fuel : nat) (T M : list Z) :
  forall (idx : nat) (t out : tags),
  scan_loop fuel T M idx t = Returns out ->
  forall (c : category) (i : nat),
  (idx <= i)%nat ->
  unmasked_begin T M c i ->
  In (i, run_after T c i) (spans_of c out).
Proof.
  induction fuel as [ | fuel IH]; intros idx t out H k i Hi Hb;
    [discriminate H | ].
  pose proof Hb as [[mi [Emi Hmi]] Eti].
  assert (HiT : (i < length T)%nat) by (apply nth_error_Some; congruence).
  destruct (Nat.eq_dec i idx) as [-> | Hne].
  - scan_step H.
    + apply getitem_returns in Em; congruence.
    + assert (c = k).
      { apply getitem_returns in Ep.
        apply category_of_begin_some in Ec.
        assert (E : begin_tag c = begin_tag k) by congruence.
        destruct c, k; try reflexivity; discriminate E. }
      subst c.
      apply count_inside_returns in El; destruct El as [-> _].
      apply (scan_loop_keeps _ _ _ _ _ _ H), spans_of_append.
      right; split; reflexivity.
    + exfalso; apply getitem_returns in Ep.
      assert (Ek : category_of_begin p = Some k)
        by (apply category_of_begin_some; congruence).
      congruence.
    + lia.
  - scan_step H; try (apply (IH _ _ _ H); [lia | exact Hb]); try lia.
    apply (IH _ _ _ H); [ | exact Hb].
    apply count_inside_returns in El; destruct El as [El _].
    destruct (Nat.le_gt_cases (idx + (len + 1)) i) as [Hle | Hgt];
      [exact Hle | exfalso].
    assert (Hin : nth_error T i = Some (inside_tag c)).
    { replace i with (idx + 1 + (i - (idx + 1)))%nat by lia.
      rewrite <- nth_error_skipn; apply inside_run_all; lia. }
    rewrite Eti in Hin; inversion Hin as [E].
    exact (begin_not_inside _ _ E).
Qed.

(** X1. A span is in the returned collection exactly when it starts at an
    unmasked Begin tag of its category and its length is the run of Inside
    tags after that position: no unmasked Begin tag is passed over. *)
Theorem extracted_spans_are_the_unmasked_begins (T M : list Z) (out : tags)
    (c : category) (s : span) :
  find_all_tags T M = Returns out ->
  (In s (spans_of c out) <->
   unmasked_begin T M c (fst s) /\ snd s = run_after T c (fst s)).
Proof.
  intros H; split.
  - intros Hin.
    destruct (find_all_tags_emits _ _ _ _ _ H Hin) as (Hm & Hb & Hrun & _).
    split; [split; assumption | exact Hrun].
  - intros [Hb Hrun]; destruct s as [i len]; simpl in *; subst len.
    apply (scan_loop_complete _ _ _ _ _ _ H); [lia | exact Hb].
Qed.

Lemma extracted_spans_are_the_unmasked_begins_witness :
  In (3, 0)%nat (spans_of ORG (mk_tags [(0, 1)%nat] [] [(3, 0)%nat])) <->
  unmasked_begin [0; 1; 6; 2; 6] [1; 1; 1; 1; 1] ORG 3 /\
  0%nat = run_after [0; 1; 6; 2; 6] ORG 3.
Proof.
  apply (extracted_spans_are_the_unmasked_begins
           [0; 1; 6; 2; 6] [1; 1; 1; 1; 1]
           (mk_tags [(0, 1)%nat] [] [(3, 0)%nat]) ORG (3, 0)%nat).
  reflexivity.
Defined.

(** The only exception of the extractor is [IndexError]. *)
Lemma scan_loop_raises (fuel : nat) (T M : list Z) :
  forall (idx : nat) (t : tags) (e : exn),
  scan_loop fuel T M idx t = Raises e -> e = IndexError.
Proof.
  induction fuel as [ | fuel IH]; intros idx t e H; [discriminate H | ].
  rewrite scan_loop_step in H.
  destruct (idx <? length T)%nat; [ | discriminate H].
  unfold getitem in H.
  destruct (nth_error M idx) as [m | ]; cbn [bind] in H;
    [ | inversion H; reflexivity].
  destruct (m =? 0); [exact (IH _ _ _ H) | ].
  destruct (nth_error T idx) as [p | ]; cbn [bind] in H;
    [ | inversion H; reflexivity].
  destruct (category_of_begin p) as [c | ]; [ | exact (IH _ _ _ H)].
  rewrite count_inside_eq in H.
  destruct (_ <? _)%nat; cbn [bind] in H;
    [exact (IH _ _ _ H) | inversion H; reflexivity].
Qed.

Lemma find_all_tags_cases (T M : list Z) :
  (exists out : tags, find_all_tags T M = Returns out) \/
  find_all_tags T M = Raises IndexError.
Proof.
  pose proof (find_all_tags_fuel T M) as Hf.
  destruct (find_all_tags T M) as [out | e | ] eqn:E;
    [left; exists out; reflexivity | right | contradiction].
  unfold find_all_tags in E; rewrite (scan_loop_raises _ _ _ _ _ _ E).
  reflexivity.
Qed.

(** When the lookahead after every unmasked Begin tag stops inside the
    sequence and the mask covers the sequence, the scan returns. *)
Lemma scan_loop_safe (fuel : nat) (T M : list Z) :
  (length T <= length M)%nat ->
  forall (idx : nat) (t : tags),
  (forall (c : category) (i : nat),
     (idx <= i)%nat -> unmasked_begin T M c i ->
     (i + 1 + run_after T c i < length T)%nat) ->
  (length T - idx < fuel)%nat ->
  exists out : tags, scan_loop fuel T M idx t = Returns out.
Proof.
  intros HM; induction fuel as [ | fuel IH]; intros idx t Hsafe Hf; [lia | ].
  rewrite scan_loop_step.
  destruct (Nat.ltb_spec idx (length T)) as [Hlt | Hge];
    [ | exists t; reflexivity].
  destruct (getitem_in_range M idx) as [m Em]; [lia | ].
  destruct (getitem_in_range T idx) as [p Ep]; [lia | ].
  rewrite Em, Ep; cbn [bind].
  destruct (Z.eqb_spec m 0) as [Hm | Hm].
  { apply IH; [intros c i Hi; apply Hsafe; lia | lia]. }
  destruct (category_of_begin p) as [c | ] eqn:Ec.
  - apply category_of_begin_some in Ec; subst p.
    apply getitem_returns in Em, Ep.
    assert (Hb : unmasked_begin T M c idx)
      by (split; [exists m; split; assumption | exact Ep]).
    specialize (Hsafe c idx (Nat.le_refl idx) Hb) as Hrun.
    unfold run_after in Hrun; rewrite count_inside_eq.
    destruct (Nat.ltb_spec
                (idx + 1 + inside_run (inside_tag c) (skipn (idx + 1) T))
                (length T)) as [_ | Hge]; [ | lia].
    cbn [bind]; apply IH; [intros k i Hi; apply Hsafe; lia | lia].
  - apply IH; [intros c i Hi; apply Hsafe; lia | lia].
Qed.

(** X2. With a mask that covers the sequence, extraction returns exactly
    when the run of Inside tags after every unmasked Begin tag ends before
    the end of the sequence; otherwise it raises [IndexError]. *)
Theorem extraction_returns_iff_runs_end_inside (T M : list Z) :
  (length T <= length M)%nat ->
  ((exists out : tags, find_all_tags T M = Returns out) <->
   (forall (c : category) (i : nat),
      unmasked_begin T M c i ->
      (i + 1 + run_after T c i < length T)%nat)) /\
  (find_all_tags T M = Raises IndexError <->
   ~ (forall (c : category) (i : nat),
        unmasked_begin T M c i ->
        (i + 1 + run_after T c i < length T)%nat)).
Proof.
  intros HM.
  assert (Hret : (exists out : tags, find_all_tags T M = Returns out) <->
                 (forall (c : category) (i : nat),
                    unmasked_begin T M c i ->
                    (i + 1 + run_after T c i < length T)%nat)).
  { split.
    - intros [out H] c i Hb.
      pose proof (scan_loop_complete _ _ _ _ _ _ H c i (Nat.le_0_l i) Hb)
        as Hin.
      destruct (find_all_tags_emits _ _ _ _ _ H Hin) as (_ & _ & _ & Hlt).
      exact Hlt.
    - intros Hsafe; unfold find_all_tags.
      apply (scan_loop_safe _ _ _ HM); [intros c i _; apply Hsafe | lia]. }
  split; [exact Hret | split].
  - intros Hr Hsafe; apply Hret in Hsafe; destruct Hsafe as [out H].
    congruence.
  - intros Hn; destruct (find_all_tags_cases T M) as [Hout | Hr];
      [exfalso; apply Hn, Hret, Hout | exact Hr].
Qed.

Lemma extraction_returns_iff_runs_end_inside_witness :
  find_all_tags [6; 0; 1] [1; 1; 1] = Raises IndexError <->
  ~ (forall (c : category) (i : nat),
       unmasked_begin [6; 0; 1] [1; 1; 1] c i ->
       (i + 1 + run_after [6; 0; 1]%Z c i < 3)%nat).
Proof.
  apply (extraction_returns_iff_runs_end_inside [6; 0; 1] [1; 1; 1]).
  simpl; lia.
Defined.

(** X3. A mask shorter than the tag sequence always ends in [IndexError]:
    the scan reaches the first position the mask does not cover, unless a
    lookahead has run off the end before. *)
Theorem short_mask_raises (T M : list Z) :
  (length M < length T)%nat ->
  find_all_tags T M = Raises IndexError.
Proof.
  intros HM; unfold find_all_tags.
  assert (Hgen : forall (fuel idx : nat) (t : tags),
             (idx < length T)%nat -> (length T - idx < fuel)%nat ->
             scan_loop fuel T M idx t = Raises IndexError).
  { induction fuel as [ | fuel IH]; intros idx t Hi Hf; [lia | ].
    rewrite scan_loop_step.
    destruct (Nat.ltb_spec idx (length T)) as [_ | Hge]; [ | lia].
    unfold getitem.
    destruct (nth_error M idx) as [m | ] eqn:Em; cbn [bind];
      [ | reflexivity].
    assert (Hlt : (idx < length M)%nat)
      by (apply nth_error_Some; congruence).
    destruct (m =? 0); [apply IH; lia | ].
    destruct (nth_error T idx) as [p | ]; cbn [bind]; [ | reflexivity].
    destruct (category_of_begin p) as [c | ]; [ | apply IH; lia].
    rewrite count_inside_eq.
    destruct (Nat.ltb_spec
                (idx + 1 + inside_run (inside_tag c) (skipn (idx + 1) T))
                (length T)) as [Hb | _]; [ | reflexivity].
    cbn [bind]; apply IH; lia. }
  apply Hgen; lia.
Qed.

Lemma short_mask_raises_witness :
  find_all_tags [6; 6; 6] [1; 1] = Raises IndexError.
Proof. apply (short_mask_raises [6; 6; 6] [1; 1]); simpl; lia. Defined.

(** ** Scan order *)

Lemma StronglySorted_snoc {A : Type} (R : A -> A -> Prop) (l : list A)
    (x : A) :
  StronglySorted R l -> (forall a : A, In a l -> R a x) ->
  StronglySorted R (l ++ [x]).
Proof.
  induction 1 as [ | a l Hs IH Ha]; intros Hx; simpl.
  - constructor; constructor.
  - constructor.
    + apply IH; intros b Hb; apply Hx; right; exact Hb.
    + apply Forall_app; split; [exact Ha | ].
      constructor; [apply Hx; left; reflexivity | constructor].
Qed.

Lemma scan_loop_sorted (fuel : nat) (T M : list Z) :
  forall (idx : nat) (t out : tags),
  scan_loop fuel T M idx t = Returns out ->
  (forall c : category, StronglySorted span_before (spans_of c t)) ->
  (forall (c : category) (s : span),
     In s (spans_of c t) -> (fst s + snd s < idx)%nat) ->
  forall c : category, StronglySorted span_before (spans_of c out).
Proof.
  induction fuel as [ | fuel IH]; intros idx t out H Hs Hb;
    [discriminate H | ].
  scan_step H.
  - apply (IH _ _ _ H Hs); intros k s Hin; specialize (Hb k s Hin); lia.
  - apply (IH _ _ _ H).
    + intros k.
      destruct c, k; simpl;
        first [exact (Hs PER) | exact (Hs LOC) | exact (Hs ORG)
              | apply StronglySorted_snoc;
                [first [exact (Hs PER) | exact (Hs LOC) | exact (Hs ORG)]
                | intros a Ha; unfold span_before; simpl;
                  first [exact (Hb PER a Ha) | exact (Hb LOC a Ha)
                        | exact (Hb ORG a Ha)]]].
    + intros k s Hin; apply spans_of_append in Hin.
      destruct Hin as [Hin | [_ ->]]; [specialize (Hb k s Hin) | simpl]; lia.
  - apply (IH _ _ _ H Hs); intros k s Hin; specialize (Hb k s Hin); lia.
  - inversion H; subst; exact Hs.
Qed.

(** X4. The spans of each category are listed in scan order, each ending
    before the next starts, and two different extracted spans, of one
    category or of two, never overlap. *)
Theorem extracted_spans_ordered_and_disjoint (T M : list Z) (out : tags) :
  find_all_tags T M = Returns out ->
  (forall c : category, StronglySorted span_before (spans_of c out)) /\
  (forall (c1 c2 : category) (s1 s2 : span),
     In s1 (spans_of c1 out) -> In s2 (spans_of c2 out) ->
     (c1 = c2 /\ s1 = s2) \/ span_before s1 s2 \/ span_before s2 s1).
Proof.
  intros H; split.
  - apply (scan_loop_sorted _ _ _ _ _ _ H).
    + intros c; destruct c; constructor.
    + intros c s Hin; destruct c; destruct Hin.
  - assert (Hlt : forall (c1 c2 : category) (s1 s2 : span),
               In s1 (spans_of c1 out) -> In s2 (spans_of c2 out) ->
               (fst s1 < fst s2)%nat -> span_before s1 s2).
    { intros c1 c2 s1 s2 H1 H2 Hlt; unfold span_before.
      destruct (find_all_tags_emits _ _ _ _ _ H H1) as (_ & _ & Hr1 & _).
      destruct (find_all_tags_emits _ _ _ _ _ H H2) as (_ & Hb2 & _ & _).
      destruct (Nat.le_gt_cases (fst s2) (fst s1 + snd s1)) as [Hle | Hgt];
        [exfalso | exact Hgt].
      assert (Hin : nth_error T (fst s2) = Some (inside_tag c1)).
      { replace (fst s2) with (fst s1 + 1 + (fst s2 - (fst s1 + 1)))%nat
          by lia.
        rewrite <- nth_error_skipn; apply inside_run_all; lia. }
      rewrite Hb2 in Hin; inversion Hin as [E].
      exact (begin_not_inside _ _ E). }
    intros c1 c2 s1 s2 H1 H2.
    destruct (Nat.lt_trichotomy (fst s1) (fst s2)) as [Hl | [He | Hg]].
    + right; left; exact (Hlt _ _ _ _ H1 H2 Hl).
    + left.
      destruct (find_all_tags_emits _ _ _ _ _ H H1) as (_ & Hb1 & Hr1 & _).
      destruct (find_all_tags_emits _ _ _ _ _ H H2) as (_ & Hb2 & Hr2 & _).
      rewrite He, Hb2 in Hb1.
      assert (c1 = c2)
        by (inversion Hb1 as [E]; destruct c1, c2; try reflexivity;
            discriminate E).
      subst c2; split; [reflexivity | ].
      destruct s1, s2; simpl in *; congruence.
    + right; right; exact (Hlt _ _ _ _ H2 H1 Hg).
Qed.

Lemma extracted_spans_ordered_and_disjoint_witness :
  (forall c : category,
     StronglySorted span_before
       (spans_of c (mk_tags [(0, 1)%nat; (5, 0)%nat] [] [(3, 0)%nat]))) /\
  (forall (c1 c2 : category) (s1 s2 : span),
     In s1 (spans_of c1 (mk_tags [(0, 1)%nat; (5, 0)%nat] [] [(3, 0)%nat])) ->
     In s2 (spans_of c2 (mk_tags [(0, 1)%nat; (5, 0)%nat] [] [(3, 0)%nat])) ->
     (c1 = c2 /\ s1 = s2) \/ span_before s1 s2 \/ span_before s2 s1).
Proof.
  apply (extracted_spans_ordered_and_disjoint
           [0; 1; 6; 2; 6; 0; 6] [1; 1; 1; 1; 1; 1; 1]).
  reflexivity.
Defined.

(** * Further properties of the metric evaluator *)

Lemma compute_f1_returns (P G M : list Z) (f : Q) :
  compute_f1 P G M = Returns f ->
  exists p r : Q,
    precision (astype_int32 P) (astype_int32 G) (astype_int32 M) = Returns p /\
    recall (astype_int32 P) (astype_int32 G) (astype_int32 M) = Returns r /\
    ((p == 0 /\ r == 0 /\ f = 0%Q) \/
     (~ p + r == 0 /\ f = (2 * p * r / (p + r))%Q)).
Proof.
  unfold compute_f1; intros H.
  apply bind_returns in H; destruct H as [p [Hp H]].
  apply bind_returns in H; destruct H as [r [Hr H]].
  exists p, r; split; [exact Hp | split; [exact Hr | ]].
  destruct (Qeq_bool p 0) eqn:Ep; destruct (Qeq_bool r 0) eqn:Er;
    cbn [andb] in H.
  1: { apply Qeq_bool_iff in Ep, Er; inversion H; left; auto. }
  all: right; unfold truediv in H;
    destruct (Qeq_bool (p + r) 0) eqn:E; [discriminate H | ];
    apply Qeq_bool_neq in E; inversion H; split; [exact E | reflexivity].
Qed.

(** X5. Whatever the sequences, every score that is returned lies in
    [[0, 1]]. *)
Theorem scores_in_unit_interval (P G M : list Z) (p r f : Q) :
  precision P G M = Returns p ->
  recall P G M = Returns r ->
  compute_f1 P G M = Returns f ->
  (0 <= p <= 1)%Q /\ (0 <= r <= 1)%Q /\ (0 <= f <= 1)%Q.
Proof.
  intros Hp Hr Hf.
  split; [exact (precision_range _ _ _ _ Hp) | ].
  split; [exact (recall_range _ _ _ _ Hr) | ].
  destruct (compute_f1_returns _ _ _ _ Hf) as (p' & r' & Hp' & Hr' & Hcase).
  apply precision_range in Hp'; apply recall_range in Hr'.
  destruct Hcase as [(_ & _ & ->) | [Hsum ->]]; [lra | ].
  assert (Hpos : (0 < p' + r')%Q) by lra.
  split.
  - apply Qle_shift_div_l; [exact Hpos | nra].
  - apply Qle_shift_div_r; [exact Hpos | nra].
Qed.

Lemma scores_in_unit_interval_witness :
  (0 <= inject_Z 1 / inject_Z 2 <= 1)%Q /\
  (0 <= inject_Z 1 / inject_Z 1 <= 1)%Q /\
  (0 <= 2 * (inject_Z 1 / inject_Z 2) * (inject_Z 1 / inject_Z 1)
        / (inject_Z 1 / inject_Z 2 + inject_Z 1 / inject_Z 1) <= 1)%Q.
Proof.
  apply (scores_in_unit_interval
           [0; 1; 6; 2; 6] [0; 1; 6; 6; 6] [1; 1; 1; 1; 1]);
    reflexivity.
Defined.



(** ** Sequences without Begin tags *)

Lemma tags_all_empty (out : tags) :
  (forall (c : category) (s : span), ~ In s (spans_of c out)) ->
  out = empty_tags.
Proof.
  intros H; destruct out as [[ | s l] [ | s' l'] [ | s'' l'']];
    try reflexivity; exfalso;
    first [apply (H PER s); left; reflexivity
          | apply (H LOC s'); left; reflexivity
          | apply (H ORG s''); left; reflexivity].
Qed.

Lemma no_unmasked_begin_empty (T M : list Z) :
  (length T <= length M)%nat ->
  (forall (c : category) (i : nat), ~ unmasked_begin T M c i) ->
  find_all_tags T M = Returns empty_tags.
Proof.
  intros HM Hno.
  destruct (scan_loop_safe (S (length T)) T M HM 0 empty_tags) as [out H];
    [intros c i _ Hb; destruct (Hno c i Hb) | lia | ].
  fold (find_all_tags T M) in H; rewrite H; f_equal.
  apply tags_all_empty; intros c s Hin.
  destruct (find_all_tags_emits _ _ _ _ _ H Hin) as (Hm & Hb & _).
  apply (Hno c (fst s)); split; assumption.
Qed.

Lemma start_mismatch (P G : list Z) (s : span) :
  length P = length G ->
  nth_error P (fst s) <> nth_error G (fst s) ->
  slices_identical P G s = false.
Proof.
  intros Hl Hne; destruct (slices_identical P G s) eqn:E; [ | reflexivity].
  exfalso; apply Hne.
  apply (proj1 (slices_identical_iff P G s Hl) E).
  unfold in_extent; lia.
Qed.

Lemma match_ratio_zero (P G : list Z) (spans : list span) :
  (forall s : span, In s spans -> slices_identical P G s = false) ->
  match_ratio P G spans == 0.
Proof.
  intros H; unfold match_ratio; destruct spans as [ | s spans];
    [reflexivity | ].
  assert (E : exact_matches P G (s :: spans) = O).
  { unfold exact_matches.
    induction (s :: spans) as [ | a l IH]; [reflexivity | ].
    cbn [filter]; rewrite (H a (or_introl eq_refl)).
    apply IH; intros b Hb; apply H; right; exact Hb. }
  rewrite E; unfold Qdiv; cbn [Z.of_nat]; ring.
Qed.

(** X7. When no Begin tag of the predictions is kept by the mask (all
    Outside, all masked, or empty input) extraction returns the empty
    collection without reading past the end, [precision] returns 0 whatever
    the gold sequence, and F1 is 0 whenever [recall] returns. *)
Theorem no_unmasked_begin_scores_zero (P G M : list Z) :
  (length P <= length M)%nat ->
  (forall (c : category) (i : nat), ~ unmasked_begin P M c i) ->
  find_all_tags P M = Returns empty_tags /\
  precision P G M = Returns 0%Q /\
  (int32_array P -> int32_array M ->
   forall r : Q,
     recall P (astype_int32 G) M = Returns r ->
     exists f : Q, compute_f1 P G M = Returns f /\ f == 0).
Proof.
  intros HM Hno.
  pose proof (no_unmasked_begin_empty P M HM Hno) as He.
  assert (Hp : forall G' : list Z, precision P G' M = Returns 0%Q)
    by (intros G'; unfold precision; rewrite He; reflexivity).
  split; [exact He | split; [apply Hp | ]].
  intros HP32 HM32 r Hr; unfold compute_f1.
  rewrite (astype_int32_id P HP32), (astype_int32_id M HM32), Hp, Hr.
  cbn [bind].
  change (Qeq_bool 0 0) with true; cbn [andb].
  destruct (Qeq_bool r 0) eqn:Er;
    [exists 0%Q; split; reflexivity | ].
  apply Qeq_bool_neq in Er; unfold truediv.
  destruct (Qeq_bool (0 + r) 0) eqn:E.
  - apply Qeq_bool_iff in E; exfalso; apply Er; lra.
  - exists (2 * 0 * r / (0 + r))%Q; split; [reflexivity | ].
    unfold Qdiv; ring.
Qed.

Lemma no_unmasked_begin_scores_zero_witness :
  find_all_tags [6; 1; 0] [1; 1; 0] = Returns empty_tags /\
  precision [6; 1; 0] [0; 1; 6] [1; 1; 0] = Returns 0%Q /\
  (int32_array [6; 1; 0] -> int32_array [1; 1; 0] ->
   forall r : Q,
     recall [6; 1; 0] (astype_int32 [0; 1; 6]) [1; 1; 0] = Returns r ->
     exists f : Q,
       compute_f1 [6; 1; 0] [0; 1; 6] [1; 1; 0] = Returns f /\ f == 0).
Proof.
  apply (no_unmasked_begin_scores_zero [6; 1; 0] [0; 1; 6] [1; 1; 0]).
  - simpl; lia.
  - intros c i [[m [Em Hm]] Eb].
    destruct i as [ | [ | [ | i]]]; simpl in Em, Eb;
      [destruct c; discriminate Eb | destruct c; discriminate Eb
      | congruence | destruct i; discriminate Em].
Defined.

(** X8. When one of the two sequences holds no Begin tag at all, every span
    extracted from the other starts at a disagreement: both [precision] and
    [recall] are 0. *)
Theorem begin_free_sequence_scores_zero (P G M : list Z) :
  length P = length G ->
  (length P <= length M)%nat ->
  (no_begin P /\ (exists tg, find_all_tags G M = Returns tg)) \/
  (no_begin G /\ (exists tp, find_all_tags P M = Returns tp)) ->
  exists p r : Q,
    precision P G M = Returns p /\ p == 0 /\
    recall P G M = Returns r /\ r == 0.
Proof.
  intros Hl HM [[Hno [tg Hg]] | [Hno [tp Hp]]].
  - exists 0%Q, (match_ratio P G (all_spans tg)).
    split; [ | split; [reflexivity | split]].
    + unfold precision; rewrite (no_unmasked_begin_empty P M HM);
        [reflexivity | intros c i [_ Hb]; exact (Hno c i Hb)].
    + unfold recall; rewrite Hg; cbn [bind]; apply score_tags_eq, Hl.
    + apply match_ratio_zero; intros s Hs.
      apply all_spans_of in Hs; destruct Hs as [c Hs].
      destruct (find_all_tags_emits _ _ _ _ _ Hg Hs) as (_ & Hb & _).
      apply start_mismatch; [exact Hl | ].
      rewrite Hb; apply Hno.
  - exists (match_ratio P G (all_spans tp)), 0%Q.
    split; [ | split; [ | split; [ | reflexivity]]].
    + unfold precision; rewrite Hp; cbn [bind]; apply score_tags_eq, Hl.
    + apply match_ratio_zero; intros s Hs.
      apply all_spans_of in Hs; destruct Hs as [c Hs].
      destruct (find_all_tags_emits _ _ _ _ _ Hp Hs) as (_ & Hb & _).
      apply start_mismatch; [exact Hl | ].
      rewrite Hb; intros E; exact (Hno c (fst s) (eq_sym E)).
    + unfold recall.
      rewrite (no_unmasked_begin_empty G M);
        [reflexivity | lia | intros c i [_ Hb]; exact (Hno c i Hb)].
Qed.

Lemma begin_free_sequence_scores_zero_witness :
  exists p r : Q,
    precision [6; 6; 6; 6] [0; 1; 6; -1] [1; 1; 1; 0] = Returns p /\ p == 0 /\
    recall [6; 6; 6; 6] [0; 1; 6; -1] [1; 1; 1; 0] = Returns r /\ r == 0.
Proof.
  apply (begin_free_sequence_scores_zero
           [6; 6; 6; 6] [0; 1; 6; -1] [1; 1; 1; 0]).
  - reflexivity.
  - simpl; lia.
  - left; split.
    + intros c [ | [ | [ | [ | [ | i]]]]]; destruct c; discriminate.
    + eexists; reflexivity.
Defined.

(** ** Spans that start together *)

Lemma emitted_tags (T M : list Z) (c : category) (s : span) :
  emitted T M c s ->
  forall i : nat, in_extent s i ->
  nth_error T i = Some (if (i =? fst s)%nat then begin_tag c
                        else inside_tag c).
Proof.
  intros (_ & Hb & Hrun & _) i [Hlo Hhi].
  destruct (Nat.eqb_spec i (fst s)) as [-> | Hne]; [exact Hb | ].
  replace i with (fst s + 1 + (i - (fst s + 1)))%nat by lia.
  rewrite <- nth_error_skipn; apply inside_run_all; lia.
Qed.

Lemma emitted_stop (T M : list Z) (c : category) (s : span) :
  emitted T M c s ->
  nth_error T (fst s + snd s + 1) <> Some (inside_tag c).
Proof.
  intros (_ & _ & Hrun & _).
  replace (fst s + snd s + 1)%nat with (fst s + 1 + snd s)%nat by lia.
  rewrite <- nth_error_skipn, Hrun; apply inside_run_stop.
Qed.

(** X9. For a predicted and a gold span of one category that start at the
    same position, the test on the predicted span succeeds exactly when it
    is no longer than the gold span, and the test on the gold span exactly
    when it is no longer than the predicted span: a prediction that stops
    short of the gold span still counts for [precision], and only for
    it. *)
Theorem same_start_spans_match_by_length (P G M : list Z) (tp tg : tags)
    (c : category) (start lp lg : nat) :
  length P = length G ->
  find_all_tags P M = Returns tp ->
  find_all_tags G M = Returns tg ->
  In (start, lp) (spans_of c tp) ->
  In (start, lg) (spans_of c tg) ->
  (span_matches P G (start, lp) = Returns true <-> (lp <= lg)%nat) /\
  (span_matches P G (start, lg) = Returns true <-> (lg <= lp)%nat).
Proof.
  intros Hl HP HG Hp Hg.
  pose proof (find_all_tags_emits _ _ _ _ _ HP Hp) as Ep.
  pose proof (find_all_tags_emits _ _ _ _ _ HG Hg) as Eg.
  pose proof (emitted_tags _ _ _ _ Ep) as Tp.
  pose proof (emitted_tags _ _ _ _ Eg) as Tg.
  pose proof (emitted_stop _ _ _ _ Ep) as Sp.
  pose proof (emitted_stop _ _ _ _ Eg) as Sg.
  unfold in_extent in Tp, Tg; simpl in Tp, Tg, Sp, Sg.
  rewrite !span_matches_eq by exact Hl.
  assert (Hiff : forall s : span,
             Returns (slices_identical P G s) = Returns true <->
             (forall i : nat, in_extent s i ->
                nth_error P i = nth_error G i)).
  { intros s; rewrite <- (slices_identical_iff P G s Hl).
    split; [intros H; inversion H; reflexivity | intros ->; reflexivity]. }
  rewrite !Hiff; unfold in_extent; simpl; split; split.
  - intros H; destruct (Nat.le_gt_cases lp lg) as [Hle | Hgt];
      [exact Hle | exfalso].
    apply Sg; rewrite <- (H (start + lg + 1)%nat) by lia.
    rewrite Tp by lia.
    destruct (Nat.eqb_spec (start + lg + 1) start); [lia | reflexivity].
  - intros Hle i Hi; rewrite Tp, Tg by lia; reflexivity.
  - intros H; destruct (Nat.le_gt_cases lg lp) as [Hle | Hgt];
      [exact Hle | exfalso].
    apply Sp; rewrite (H (start + lp + 1)%nat) by lia.
    rewrite Tg by lia.
    destruct (Nat.eqb_spec (start + lp + 1) start); [lia | reflexivity].
  - intros Hle i Hi; rewrite Tp, Tg by lia; reflexivity.
Qed.

Lemma same_start_spans_match_by_length_witness :
  (span_matches [0; 6; 6] [0; 1; 6] (0, 0)%nat = Returns true <->
   (0 <= 1)%nat) /\
  (span_matches [0; 6; 6] [0; 1; 6] (0, 1)%nat = Returns true <->
   (1 <= 0)%nat).
Proof.
  apply (same_start_spans_match_by_length
           [0; 6; 6] [0; 1; 6] [1; 1; 1]
           (mk_tags [(0, 0)%nat] [] []) (mk_tags [(0, 1)%nat] [] []) PER);
    try reflexivity; simpl; left; reflexivity.
Defined.

(** X10. [precision] is 1 exactly when at least one span is extracted from
    the predictions and the two sequences agree on the whole extent of
    every one of them; likewise [recall] with the spans of the gold
    sequence. *)
Theorem perfect_score_iff_all_extents_agree (P G M : list Z)
    (tp tg : tags) (p r : Q) :
  length P = length G ->
  find_all_tags P M = Returns tp ->
  find_all_tags G M = Returns tg ->
  precision P G M = Returns p ->
  recall P G M = Returns r ->
  (p == 1 <->
   all_spans tp <> [] /\
   forall (s : span) (i : nat),
     In s (all_spans tp) -> in_extent s i ->
     nth_error P i = nth_error G i) /\
  (r == 1 <->
   all_spans tg <> [] /\
   forall (s : span) (i : nat),
     In s (all_spans tg) -> in_extent s i ->
     nth_error P i = nth_error G i).
Proof.
  intros Hl HP HG Hp Hr.
  assert (Hgen : forall spans : list span,
             match_ratio P G spans == 1 <->
             spans <> [] /\
             forall (s : span) (i : nat),
               In s spans -> in_extent s i ->
               nth_error P i = nth_error G i).
  { intros spans; split.
    - intros H1; split.
      + intros ->; discriminate H1.
      + intros s i Hs.
        destruct (slices_identical P G s) eqn:E.
        * exact (proj1 (slices_identical_iff P G s Hl) E i).
        * pose proof (match_ratio_lt_one _ _ _ _ Hs E) as Hlt.
          rewrite H1 in Hlt; discriminate Hlt.
    - intros [Hne Hall]; apply match_ratio_one; [exact Hne | ].
      intros s Hs; apply (slices_identical_iff P G s Hl).
      intros i; exact (Hall s i Hs). }
  unfold precision in Hp; rewrite HP in Hp; cbn [bind] in Hp.
  unfold recall in Hr; rewrite HG in Hr; cbn [bind] in Hr.
  rewrite score_tags_eq in Hp, Hr by exact Hl.
  inversion Hp; inversion Hr; subst p r; split; apply Hgen.
Qed.

Lemma perfect_score_iff_all_extents_agree_witness :
  (inject_Z 1 / inject_Z 1 == 1 <->
   all_spans (mk_tags [(0, 0)%nat] [] []) <> [] /\
   forall (s : span) (i : nat),
     In s (all_spans (mk_tags [(0, 0)%nat] [] [])) -> in_extent s i ->
     nth_error [0; 6; 6] i = nth_error [0; 1; 6] i) /\
  (inject_Z 0 / inject_Z 1 == 1 <->
   all_spans (mk_tags [(0, 1)%nat] [] []) <> [] /\
   forall (s : span) (i : nat),
     In s (all_spans (mk_tags [(0, 1)%nat] [] [])) -> in_extent s i ->
     nth_error [0; 6; 6] i = nth_error [0; 1; 6] i).
Proof.
  apply (perfect_score_iff_all_extents_agree
           [0; 6; 6] [0; 1; 6] [1; 1; 1]); reflexivity.
Defined.

(** * The mask *)

Lemma scan_loop_mask_at_begin (fuel : nat) (T M1 M2 : list Z) :
  (length T <= length M1)%nat ->
  (length T <= length M2)%nat ->
  (forall (c : category) (i : nat) (m1 m2 : Z),
     nth_error T i = Some (begin_tag c) ->
     nth_error M1 i = Some m1 -> nth_error M2 i = Some m2 ->
     (m1 = 0 <-> m2 = 0)) ->
  forall (idx : nat) (t : tags),
  scan_loop fuel T M1 idx t = scan_loop fuel T M2 idx t.
Proof.
  intros H1 H2 Hb; induction fuel as [ | fuel IH]; intros idx t;
    [reflexivity | ].
  rewrite !scan_loop_step.
  destruct (Nat.ltb_spec idx (length T)) as [Hlt | Hge]; [ | reflexivity].
  destruct (getitem_in_range M1 idx) as [m1 E1]; [lia | ].
  destruct (getitem_in_range M2 idx) as [m2 E2]; [lia | ].
  destruct (getitem_in_range T idx) as [p Ep]; [lia | ].
  rewrite E1, E2, Ep; cbn [bind].
  apply getitem_returns in E1, E2, Ep.
  destruct (category_of_begin p) as [c | ] eqn:Ec.
  - apply category_of_begin_some in Ec; subst p.
    pose proof (Hb c idx m1 m2 Ep E1 E2) as Hiff.
    destruct (Z.eqb_spec m1 0) as [Hm1 | Hm1];
      destruct (Z.eqb_spec m2 0) as [Hm2 | Hm2];
      try (exfalso; tauto); [apply IH | ].
    destruct (count_inside T (inside_tag c) idx); cbn [bind];
      [apply IH | reflexivity | reflexivity].
  - destruct (m1 =? 0); destruct (m2 =? 0); apply IH.
Qed.

(** X11. The mask bit decides something only where the tag is a Begin
    tag: two masks that cover the sequence and keep the same Begin tags
    give the same outcome, the same collection or the same exception. *)
Theorem mask_matters_only_at_begin_tags (T M1 M2 : list Z) :
  (length T <= length M1)%nat ->
  (length T <= length M2)%nat ->
  (forall (c : category) (i : nat) (m1 m2 : Z),
     nth_error T i = Some (begin_tag c) ->
     nth_error M1 i = Some m1 -> nth_error M2 i = Some m2 ->
     (m1 = 0 <-> m2 = 0)) ->
  find_all_tags T M1 = find_all_tags T M2.
Proof.
  intros H1 H2 Hb; unfold find_all_tags.
  apply scan_loop_mask_at_begin; assumption.
Qed.

Lemma mask_matters_only_at_begin_tags_witness :
  find_all_tags [0; 1; 6; 1; 2; 6] [1; 0; 0; 0; 7; 0] =
  find_all_tags [0; 1; 6; 1; 2; 6] [1; 1; 1; 1; 1; 1].
Proof.
  apply (mask_matters_only_at_begin_tags [0; 1; 6; 1; 2; 6]).
  - simpl; lia.
  - simpl; lia.
  - intros c i m1 m2 Eb E1 E2.
    destruct i as [ | [ | [ | [ | [ | [ | i]]]]]]; simpl in Eb, E1, E2;
      inversion E1; inversion E2; subst; try (split; discriminate);
      try (destruct c; discriminate Eb).
    destruct i; discriminate Eb.
Defined.

(** * [evaluate] *)

Lemma labels_mask_nth (G : list Z) (i : nat) (m : Z) :
  nth_error (labels_mask G) i = Some m ->
  exists g : Z, nth_error G i = Some g /\ (m = 0 <-> g < 0).
Proof.
  unfold labels_mask; rewrite nth_error_map.
  destruct (nth_error G i) as [g | ]; simpl; intros H; inversion H.
  exists g; split; [reflexivity | ].
  destruct (Z.leb_spec 0 g); split; intros; try lia; discriminate.
Qed.

(** X12. The mask that [evaluate] derives from the gold labels masks only
    negative labels, which are no Begin tags: extracting the gold spans
    under it gives the same outcome as extracting them with nothing
    masked. *)
Theorem labels_mask_is_transparent_for_gold (G : list Z) :
  find_all_tags G (labels_mask G) = find_all_tags G (map (fun _ => 1) G).
Proof.
  apply scan_loop_mask_at_begin.
  - unfold labels_mask; rewrite length_map; lia.
  - rewrite length_map; lia.
  - intros c i m1 m2 Eb E1 E2.
    apply labels_mask_nth in E1; destruct E1 as [g [Eg Hg]].
    rewrite nth_error_map, Eg in E2; simpl in E2; inversion E2; subst m2.
    rewrite Eb in Eg; inversion Eg; subst g.
    split; [intros H; apply Hg in H; destruct c; discriminate H
           | discriminate].
Qed.

(** X13. Under the mask of [evaluate], a predicted span whose extent reaches
    a position with a negative (padding) gold label always fails the
    exact-match test, although that position is masked. *)
Theorem span_over_padding_is_false_positive (P G : list Z) (tp : tags)
    (s : span) (i : nat) (g : Z) :
  length P = length G ->
  find_all_tags P (labels_mask G) = Returns tp ->
  In s (all_spans tp) ->
  in_extent s i ->
  nth_error G i = Some g ->
  g < 0 ->
  span_matches P G s = Returns false /\
  exists p : Q, precision P G (labels_mask G) = Returns p /\ (p < 1)%Q.
Proof.
  intros Hl HP Hs Hi Eg Hg.
  assert (Hfalse : slices_identical P G s = false).
  { destruct (slices_identical P G s) eqn:E; [exfalso | reflexivity].
    pose proof (proj1 (slices_identical_iff P G s Hl) E i Hi) as Hagree.
    apply all_spans_of in Hs; destruct Hs as [c Hs].
    pose proof (emitted_tags _ _ _ _
                  (find_all_tags_emits _ _ _ _ _ HP Hs) i Hi) as Et.
    rewrite Hagree, Eg in Et; inversion Et; subst g.
    destruct (i =? fst s)%nat; destruct c; discriminate Hg. }
  rewrite span_matches_eq, Hfalse by exact Hl.
  split; [reflexivity | ].
  exists (match_ratio P G (all_spans tp)); split.
  - unfold precision; rewrite HP; cbn [bind]; apply score_tags_eq, Hl.
  - exact (match_ratio_lt_one _ _ _ _ Hs Hfalse).
Qed.

Lemma span_over_padding_is_false_positive_witness :
  span_matches [0; 1; 1; 6] [0; 1; -1; -1] (0, 2)%nat = Returns false /\
  exists p : Q,
    precision [0; 1; 1; 6] [0; 1; -1; -1] (labels_mask [0; 1; -1; -1]) =
    Returns p /\ (p < 1)%Q.
Proof.
  apply (span_over_padding_is_false_positive
           [0; 1; 1; 6] [0; 1; -1; -1] (mk_tags [(0, 2)%nat] [] [])
           (0, 2)%nat 2%nat (-1)).
  - reflexivity.
  - reflexivity.
  - simpl; left; reflexivity.
  - unfold in_extent; simpl; lia.
  - reflexivity.
  - lia.
Defined.

Lemma argmax_from_bound (row : list Q) :
  forall (best : Q) (best_i i : nat),
  (best_i < i)%nat ->
  (argmax_from best best_i i row < i + length row)%nat.
Proof.
  induction row as [ | x row IH]; intros best best_i i Hi; simpl; [lia | ].
  destruct (Qle_bool x best).
  - specialize (IH best best_i (S i)); lia.
  - specialize (IH x i (S i)); lia.
Qed.

Lemma argmax_row_bound (row : list Q) (i : Z) :
  argmax_row row = Returns i -> 0 <= i < Z.of_nat (length row).
Proof.
  destruct row as [ | x row]; simpl; intros H; inversion H; subst.
  pose proof (argmax_from_bound row x 0%nat 1%nat); lia.
Qed.

Lemma argmax_seven (outputs : list (list Q)) :
  (forall row : list Q, In row outputs -> length row = 7%nat) ->
  exists labels : list Z,
    argmax outputs = Returns labels /\
    length labels = length outputs /\ in_vocabulary labels.
Proof.
  induction outputs as [ | row rest IH]; intros H7; simpl.
  - exists []; repeat split; constructor.
  - destruct IH as (labels & E & Hlen & Hvoc);
      [intros r Hr; apply H7; right; exact Hr | ].
    pose proof (H7 row (or_introl eq_refl)) as Hrow.
    destruct (argmax_row row) as [i | | ] eqn:Ei;
      try (destruct row; [discriminate Hrow | discriminate Ei]).
    rewrite E; cbn [bind].
    exists (i :: labels); split; [reflexivity | split; [simpl; lia | ]].
    constructor; [ | exact Hvoc].
    apply argmax_row_bound in Ei; lia.
Qed.

Lemma predict_batches_seven (model : list (list Z) -> list (list Q))
    (dev_batches : list (list (list Z) * list (list Z))) :
  (forall (b : list (list Z) * list (list Z)) (row : list Q),
     In b dev_batches -> In row (model (fst b)) -> length row = 7%nat) ->
  forall acc : list Z,
  in_vocabulary acc ->
  exists preds : list Z,
    predict_batches model dev_batches acc = Returns preds /\
    length preds =
    (length acc +
     length (concat (map (fun b => model (fst b)) dev_batches)))%nat /\
    in_vocabulary preds.
Proof.
  induction dev_batches as [ | [ids lbl] rest IH]; intros H7 acc Hacc; simpl.
  - exists acc; split; [reflexivity | split; [lia | exact Hacc]].
  - destruct (argmax_seven (model ids)) as (labels & E & Hlen & Hvoc);
      [intros row Hrow; apply (H7 (ids, lbl)); [left; reflexivity | exact Hrow]
      | ].
    rewrite E; cbn [bind].
    destruct (IH (fun b row Hb => H7 b row (or_intror Hb)) (acc ++ labels))
      as (preds & Ep & Hl & Hv);
      [apply Forall_app; split; assumption | ].
    exists preds; split; [exact Ep | split; [ | exact Hv]].
    rewrite Hl, !length_app, Hlen; lia.
Qed.

Lemma f1_of_scores_returns (p r : Q) :
  (0 <= p <= 1)%Q -> (0 <= r <= 1)%Q ->
  exists f : Q,
    (if Qeq_bool p 0 && Qeq_bool r 0 then Returns 0%Q
     else truediv (2 * p * r) (p + r)) = Returns f.
Proof.
  intros Hp Hr.
  destruct (Qeq_bool p 0 && Qeq_bool r 0) eqn:E0;
    [exists 0%Q; reflexivity | ].
  unfold truediv; destruct (Qeq_bool (p + r) 0) eqn:E;
    [exfalso | eexists; reflexivity].
  apply Qeq_bool_iff in E.
  apply andb_false_iff in E0; destruct E0 as [E0 | E0];
    apply Qeq_bool_neq in E0; apply E0; lra.
Qed.

Lemma precision_cases (P G M : list Z) :
  length P = length G ->
  (exists p : Q, precision P G M = Returns p) \/
  precision P G M = Raises IndexError.
Proof.
  intros Hl; unfold precision.
  destruct (find_all_tags_cases P M) as [[out ->] | ->]; cbn [bind];
    [left | right; reflexivity].
  rewrite score_tags_eq by exact Hl; eexists; reflexivity.
Qed.

Lemma recall_cases (P G M : list Z) :
  length P = length G ->
  (exists r : Q, recall P G M = Returns r) \/
  recall P G M = Raises IndexError.
Proof.
  intros Hl; unfold recall.
  destruct (find_all_tags_cases G M) as [[out ->] | ->]; cbn [bind];
    [left | right; reflexivity].
  rewrite score_tags_eq by exact Hl; eexists; reflexivity.
Qed.

Lemma compute_f1_cases (P G M : list Z) :
  length P = length G ->
  (exists f : Q, compute_f1 P G M = Returns f /\ (0 <= f <= 1)%Q) \/
  compute_f1 P G M = Raises IndexError.
Proof.
  intros Hl.
  assert (Hl' : length (astype_int32 P) = length (astype_int32 G))
    by (unfold astype_int32; rewrite !length_map; exact Hl).
  assert (Hrange : forall f : Q,
             compute_f1 P G M = Returns f -> (0 <= f <= 1)%Q).
  { intros f Hf.
    destruct (compute_f1_returns _ _ _ _ Hf) as (p & r & Hp & Hr & Hcase).
    apply precision_range in Hp; apply recall_range in Hr.
    destruct Hcase as [(_ & _ & ->) | [Hsum ->]]; [lra | ].
    assert (Hpos : (0 < p + r)%Q) by lra.
    split; [apply Qle_shift_div_l | apply Qle_shift_div_r];
      try exact Hpos; nra. }
  destruct (compute_f1 P G M) as [f | e | ] eqn:Ef;
    [left; exists f; split; [reflexivity | apply Hrange; reflexivity]
    | right | exfalso; exact (compute_f1_fuel P G M Ef)].
  unfold compute_f1 in Ef.
  destruct (precision_cases (astype_int32 P) (astype_int32 G)
              (astype_int32 M) Hl') as [[p Hp] | Hp];
    rewrite Hp in Ef; cbn [bind] in Ef; [ | congruence].
  destruct (recall_cases (astype_int32 P) (astype_int32 G)
              (astype_int32 M) Hl') as [[r Hr] | Hr];
    rewrite Hr in Ef; cbn [bind] in Ef; [ | congruence].
  destruct (f1_of_scores_returns p r (precision_range _ _ _ _ Hp)
              (recall_range _ _ _ _ Hr)) as [f Hf].
  congruence.
Qed.

(** X14. When the network gives seven scores for every token and as many
    rows as there are gold labels, [evaluate] predicts tags of the
    vocabulary and either returns a score in [[0, 1]] or raises the
    [IndexError] of the lookahead; it raises no shape error and divides by
    no zero. *)
Theorem evaluate_returns_score_or_index_error
    (model : list (list Z) -> list (list Q)) (dev_labels : list (list Z))
    (dev_batches : list (list (list Z) * list (list Z))) :
  (forall (b : list (list Z) * list (list Z)) (row : list Q),
     In b dev_batches -> In row (model (fst b)) -> length row = 7%nat) ->
  length (concat (map (fun b => model (fst b)) dev_batches)) =
  length (concat dev_labels) ->
  (exists preds : list Z,
     predict_batches model dev_batches [] = Returns preds /\
     in_vocabulary preds /\ length preds = length (concat dev_labels)) /\
  ((exists f : Q,
      evaluate model dev_labels dev_batches = Returns f /\
      (0 <= f <= 1)%Q) \/
   evaluate model dev_labels dev_batches = Raises IndexError).
Proof.
  intros H7 Hrows.
  destruct (predict_batches_seven model dev_batches H7 [])
    as (preds & Ep & Hl & Hv); [constructor | ].
  simpl in Hl; rewrite Hrows in Hl.
  split; [exists preds; repeat split; assumption | ].
  unfold evaluate; rewrite Ep; cbn [bind].
  apply compute_f1_cases; exact Hl.
Qed.

Lemma evaluate_returns_score_or_index_error_witness :
  (exists preds : list Z,
     predict_batches (fun ids => map (fun _ => [0; 0; 0; 0; 0; 0; 1]%Q)
                                   (concat ids))
       [([[5; 8]], [[6; -1]])] [] = Returns preds /\
     in_vocabulary preds /\ length preds = length (concat [[6; -1]])) /\
  ((exists f : Q,
      evaluate (fun ids => map (fun _ => [0; 0; 0; 0; 0; 0; 1]%Q)
                             (concat ids))
        [[6; -1]] [([[5; 8]], [[6; -1]])] = Returns f /\
      (0 <= f <= 1)%Q) \/
   evaluate (fun ids => map (fun _ => [0; 0; 0; 0; 0; 0; 1]%Q) (concat ids))
     [[6; -1]] [([[5; 8]], [[6; -1]])] = Raises IndexError).
Proof.
  apply (evaluate_returns_score_or_index_error
           (fun ids => map (fun _ => [0; 0; 0; 0; 0; 0; 1]%Q) (concat ids))
           [[6; -1]] [([[5; 8]], [[6; -1]])]).
  - intros b row [<- | []] Hrow; simpl in Hrow.
    destruct Hrow as [<- | [<- | []]]; reflexivity.
  - reflexivity.
Defined.

(** * Extraction from a concatenation *)

Lemma scan_loop_fuel_irrelevant (T M : list Z) :
  forall (f f' idx : nat) (t : tags),
  (length T - idx < f)%nat -> (length T - idx < f')%nat ->
  scan_loop f T M idx t = scan_loop f' T M idx t.
Proof.
  induction f as [ | f IH]; intros f' idx t Hf Hf'; [lia | ].
  destruct f' as [ | f']; [lia | ].
  rewrite !scan_loop_step.
  destruct (Nat.ltb_spec idx (length T)) as [Hlt | Hge]; [ | reflexivity].
  destruct (getitem M idx) as [m | | ]; cbn [bind]; try reflexivity.
  destruct (m =? 0); [apply IH; lia | ].
  destruct (getitem T idx) as [p | | ]; cbn [bind]; try reflexivity.
  destruct (category_of_begin p) as [c | ]; [ | apply IH; lia].
  destruct (count_inside T (inside_tag c) idx); cbn [bind];
    [apply IH; lia | reflexivity | reflexivity].
Qed.

Lemma inside_run_app (itag : Z) (l l' : list Z) :
  (inside_run itag l < length l)%nat ->
  inside_run itag (l ++ l') = inside_run itag l.
Proof.
  induction l as [ | x l IH]; simpl; intros H; [lia | ].
  destruct (x =? itag); [rewrite IH by lia | ]; reflexivity.
Qed.

Lemma count_inside_prefix (T1 T2 : list Z) (itag : Z) (idx len : nat) :
  count_inside T1 itag idx = Returns len ->
  count_inside (T1 ++ T2) itag idx = Returns len.
Proof.
  intros H; apply count_inside_returns in H; destruct H as [-> Hb].
  rewrite count_inside_eq, skipn_app.
  replace (idx + 1 - length T1)%nat with O by lia; cbn [skipn].
  rewrite inside_run_app by (rewrite length_skipn; lia).
  rewrite length_app.
  destruct (Nat.ltb_spec
              (idx + 1 + inside_run itag (skipn (idx + 1) T1))
              (length T1 + length T2)); [reflexivity | lia].
Qed.

Lemma count_inside_suffix (T1 T2 : list Z) (itag : Z) (idx : nat) :
  count_inside (T1 ++ T2) itag (length T1 + idx) = count_inside T2 itag idx.
Proof.
  rewrite !count_inside_eq, skipn_app, length_app.
  rewrite skipn_all2 by lia; cbn [app].
  replace (length T1 + idx + 1 - length T1)%nat with (idx + 1)%nat by lia.
  destruct (Nat.ltb_spec
              (length T1 + idx + 1 + inside_run itag (skipn (idx + 1) T2))
              (length T1 + length T2));
    destruct (Nat.ltb_spec
                (idx + 1 + inside_run itag (skipn (idx + 1) T2))
                (length T2)); try reflexivity; lia.
Qed.

Lemma append_span_shift (c : category) (acc t : tags) (n idx len : nat) :
  append_span c (concat_tags acc (shift_tags n t)) ((n + idx)%nat, len) =
  concat_tags acc (shift_tags n (append_span c t (idx, len))).
Proof.
  destruct c; unfold concat_tags, shift_tags; simpl;
    rewrite map_app, app_assoc; reflexivity.
Qed.

Section Concatenation.

Variables (T1 M1 T2 M2 : list Z).
Hypothesis equal_length : length M1 = length T1.

(** The scan of the concatenation inside the first sequence. *)
Lemma scan_prefix (fuel : nat) :
  forall (idx : nat) (t out : tags),
  scan_loop fuel T1 M1 idx t = Returns out ->
  (idx <= length T1)%nat ->
  forall fuel' : nat,
  (length (T1 ++ T2) - idx < fuel')%nat ->
  scan_loop fuel' (T1 ++ T2) (M1 ++ M2) idx t =
  scan_loop (S (length T2)) (T1 ++ T2) (M1 ++ M2) (length T1) out.
Proof.
  induction fuel as [ | fuel IH]; intros idx t out H Hi fuel' Hf;
    [discriminate H | ].
  assert (HT : length (T1 ++ T2) = (length T1 + length T2)%nat)
    by apply length_app.
  destruct (Nat.eq_dec idx (length T1)) as [-> | Hne].
  - rewrite scan_loop_step in H.
    destruct (Nat.ltb_spec (length T1) (length T1)) as [Hlt | _]; [lia | ].
    inversion H; subst out.
    apply scan_loop_fuel_irrelevant; lia.
  - destruct fuel' as [ | fuel']; [lia | ].
    rewrite scan_loop_step.
    destruct (Nat.ltb_spec idx (length (T1 ++ T2))) as [_ | Hge]; [ | lia].
    assert (EM : getitem (M1 ++ M2) idx = getitem M1 idx)
      by (unfold getitem; rewrite nth_error_app1 by lia; reflexivity).
    assert (ET : getitem (T1 ++ T2) idx = getitem T1 idx)
      by (unfold getitem; rewrite nth_error_app1 by lia; reflexivity).
    rewrite EM, ET.
    scan_step H; try lia.
    + apply (IH _ _ _ H); lia.
    + rewrite (count_inside_prefix _ T2 _ _ _ El); cbn [bind].
      apply count_inside_returns in El.
      apply (IH _ _ _ H); lia.
    + apply (IH _ _ _ H); lia.
Qed.

(** The scan of the concatenation inside the second sequence. *)
Lemma scan_suffix (fuel : nat) :
  forall (idx : nat) (acc t : tags),
  scan_loop fuel (T1 ++ T2) (M1 ++ M2) (length T1 + idx)
    (concat_tags acc (shift_tags (length T1) t)) =
  (r <- scan_loop fuel T2 M2 idx t ;;
   Returns (concat_tags acc (shift_tags (length T1) r))).
Proof.
  induction fuel as [ | fuel IH]; intros idx acc t; [reflexivity | ].
  rewrite !scan_loop_step, length_app.
  assert (EM : getitem (M1 ++ M2) (length T1 + idx) = getitem M2 idx).
  { unfold getitem; rewrite nth_error_app2 by lia.
    replace (length T1 + idx - length M1)%nat with idx by lia.
    reflexivity. }
  assert (ET : getitem (T1 ++ T2) (length T1 + idx) = getitem T2 idx).
  { unfold getitem; rewrite nth_error_app2 by lia.
    replace (length T1 + idx - length T1)%nat with idx by lia.
    reflexivity. }
  rewrite EM, ET.
  destruct (Nat.ltb_spec (length T1 + idx) (length T1 + length T2));
    destruct (Nat.ltb_spec idx (length T2)); try lia; [ | reflexivity].
  destruct (getitem M2 idx) as [m | | ]; cbn [bind]; try reflexivity.
  destruct (m =? 0);
    [rewrite <- Nat.add_assoc; apply IH | ].
  destruct (getitem T2 idx) as [p | | ]; cbn [bind]; try reflexivity.
  destruct (category_of_begin p) as [c | ];
    [ | rewrite <- Nat.add_assoc; apply IH].
  rewrite count_inside_suffix.
  destruct (count_inside T2 (inside_tag c) idx) as [len | | ]; cbn [bind];
    try reflexivity.
  rewrite append_span_shift, <- Nat.add_assoc; apply IH.
Qed.

End Concatenation.

Lemma concat_tags_shift_empty (t : tags) (n : nat) :
  concat_tags t (shift_tags n empty_tags) = t.
Proof.
  destruct t; unfold concat_tags, shift_tags; simpl.
  rewrite !app_nil_r; reflexivity.
Qed.

(** X15. Extraction from a concatenation: when the first sequence, with a
    mask of its own length, is extracted without a fault, the collection
    of the concatenation is its collection followed by the collection of
    the second sequence moved by the length of the first; a fault of the
    second sequence is the fault of the concatenation. *)
Theorem find_all_tags_concatenation (T1 M1 T2 M2 : list Z) (t1 : tags) :
  length M1 = length T1 ->
  find_all_tags T1 M1 = Returns t1 ->
  find_all_tags (T1 ++ T2) (M1 ++ M2) =
  (t2 <- find_all_tags T2 M2 ;;
   Returns (concat_tags t1 (shift_tags (length T1) t2))).
Proof.
  intros Hl H1; unfold find_all_tags in *.
  rewrite (scan_prefix T1 M1 T2 M2 Hl _ _ _ _ H1) by lia.
  pose proof (scan_suffix T1 M1 T2 M2 Hl (S (length T2)) 0 t1 empty_tags)
    as Hs.
  rewrite Nat.add_0_r, concat_tags_shift_empty in Hs; exact Hs.
Qed.

Lemma find_all_tags_concatenation_witness :
  find_all_tags ([0; 1; 6] ++ [2; 3; 6; 4; -1])
                ([1; 1; 1] ++ [1; 1; 1; 1; 0]) =
  (t2 <- find_all_tags [2; 3; 6; 4; -1] [1; 1; 1; 1; 0] ;;
   Returns (concat_tags (mk_tags [(0, 1)%nat] [] []) (shift_tags 3 t2))).
Proof.
  apply (find_all_tags_concatenation
           [0; 1; 6] [1; 1; 1] [2; 3; 6; 4; -1] [1; 1; 1; 1; 0]);
    reflexivity.
Defined.

(** * The checkpoint promotion of [main] *)

Lemma after_evaluation_promoted (done : list Q) (score : Q)
    (st : run_state) :
  promoted done st ->
  promoted (done ++ [score]) (after_evaluation (length done) score st).
Proof.
  intros (Hmax & Hnone & Hsome); unfold after_evaluation.
  assert (H0 : (0 <= max_score st)%Q).
  { destruct (saved st) as [k | ] eqn:Es.
    - destruct (Hsome k eq_refl) as (_ & Hpos & _); lra.
    - destruct (Hnone eq_refl) as [-> _]; lra. }
  destruct (Qle_bool score (max_score st)) eqn:E; cbn [negb].
  - apply Qle_bool_iff in E; split; [ | split].
    + intros s Hs; apply in_app_iff in Hs.
      destruct Hs as [Hs | [<- | []]]; [apply Hmax, Hs | exact E].
    + exact Hnone.
    + intros k Hk; destruct (Hsome k Hk) as (Hn & Hpos & Hres & Hlt).
      assert (Hk' : (k < length done)%nat)
        by (apply nth_error_Some; congruence).
      split; [rewrite nth_error_app1 by exact Hk'; exact Hn | ].
      split; [exact Hpos | split; [exact Hres | ]].
      intros j s Hj Ej; rewrite nth_error_app1 in Ej by lia.
      exact (Hlt j s Hj Ej).
  - assert (Hgt : (max_score st < score)%Q).
    { apply Qnot_le_lt; intros Hle; apply Qle_bool_iff in Hle; congruence. }
    split; [ | split]; cbn [max_score saved results].
    + intros s Hs; apply in_app_iff in Hs.
      destruct Hs as [Hs | [<- | []]]; [ | apply Qle_refl].
      specialize (Hmax s Hs); lra.
    + discriminate.
    + intros k Hk; inversion Hk; subst k.
      split; [rewrite nth_error_app2, Nat.sub_diag by lia; reflexivity | ].
      split; [lra | split].
      * destruct (Qeq_bool score 0) eqn:E0; [ | reflexivity].
        apply Qeq_bool_iff in E0; exfalso; lra.
      * intros j s Hj Ej; rewrite nth_error_app1 in Ej by exact Hj.
        apply nth_error_In in Ej; specialize (Hmax s Ej); lra.
Qed.

Lemma evaluations_promoted (scores : list Q) :
  forall (done : list Q) (st : run_state),
  promoted done st ->
  promoted (done ++ scores) (evaluations (length done) scores st).
Proof.
  induction scores as [ | score rest IH]; intros done st H; simpl.
  - rewrite app_nil_r; exact H.
  - replace (done ++ score :: rest) with ((done ++ [score]) ++ rest)
      by (rewrite <- app_assoc; reflexivity).
    replace (S (length done)) with (length (done ++ [score]))
      by (rewrite length_app; simpl; lia).
    apply IH, after_evaluation_promoted, H.
Qed.

(** X16. After any run of evaluations, [max_score] bounds every score; the
    saved weights are those of the first evaluation that reached the best
    score, which is above 0 and is the score in the results file; and when
    nothing was saved no evaluation scored above 0. *)
Theorem best_checkpoint_is_first_best_score (scores : list Q) :
  (forall s : Q,
     In s scores ->
     (s <= max_score (evaluations 0 scores initial_state))%Q) /\
  (saved (evaluations 0 scores initial_state) = None ->
   results (evaluations 0 scores initial_state) = None /\
   forall s : Q, In s scores -> (s <= 0)%Q) /\
  (forall k : nat,
     saved (evaluations 0 scores initial_state) = Some k ->
     nth_error scores k =
     Some (max_score (evaluations 0 scores initial_state)) /\
     (0 < max_score (evaluations 0 scores initial_state))%Q /\
     results (evaluations 0 scores initial_state) =
     Some (max_score (evaluations 0 scores initial_state)) /\
     forall (j : nat) (s : Q),
       (j < k)%nat -> nth_error scores j = Some s ->
       (s < max_score (evaluations 0 scores initial_state))%Q).
Proof.
  assert (Hinit : promoted [] initial_state).
  { split; [intros s [] | split; [intros _; split; reflexivity | ]].
    intros k Hk; discriminate Hk. }
  destruct (evaluations_promoted scores [] initial_state Hinit)
    as (Hmax & Hnone & Hsome); simpl in Hmax, Hnone, Hsome.
  split; [exact Hmax | split; [ | exact Hsome]].
  intros Hs; destruct (Hnone Hs) as [E0 Hres]; split; [exact Hres | ].
  intros s Hin; specialize (Hmax s Hin); rewrite E0 in Hmax; exact Hmax.
Qed.

(** * Sequences of different lengths *)

Lemma span_matches_in_bounds (P G : list Z) (s : span) :
  (fst s + snd s < length P)%nat ->
  (fst s + snd s < length G)%nat ->
  span_matches P G s = Returns (slices_identical P G s).
Proof.
  intros HP HG; unfold span_matches, eq_all, slices_identical.
  assert (Hlen : length (slice P (fst s) (fst s + snd s + 1)) =
                 length (slice G (fst s) (fst s + snd s + 1)))
    by (rewrite !slice_length; lia).
  rewrite Hlen, Nat.eqb_refl, forallb_combine_eq by exact Hlen.
  reflexivity.
Qed.

Lemma score_spans_in_bounds (P G : list Z) (spans : list span) :
  (forall s : span,
     In s spans ->
     (fst s + snd s < length P)%nat /\ (fst s + snd s < length G)%nat) ->
  forall pre : list Z,
  score_spans P G spans pre = Returns (pre ++ map (indicator P G) spans).
Proof.
  induction spans as [ | s spans IH]; intros Hb pre; simpl.
  - rewrite app_nil_r; reflexivity.
  - destruct (Hb s (or_introl eq_refl)) as [HP HG].
    rewrite span_matches_in_bounds by assumption; cbn [bind].
    rewrite IH by (intros s' Hs'; apply Hb; right; exact Hs').
    rewrite <- app_assoc; reflexivity.
Qed.

Lemma score_tags_in_bounds (P G : list Z) (result : tags) :
  (forall s : span,
     In s (all_spans result) ->
     (fst s + snd s < length P)%nat /\ (fst s + snd s < length G)%nat) ->
  score_tags P G result = Returns (match_ratio P G (all_spans result)).
Proof.
  intros Hb; unfold score_tags.
  assert (Hc : forall (c : category) (s : span),
             In s (spans_of c result) ->
             (fst s + snd s < length P)%nat /\
             (fst s + snd s < length G)%nat)
    by (intros c s Hs; apply Hb, all_spans_of; exists c; exact Hs).
  rewrite score_spans_in_bounds by exact (Hc PER); cbn [bind app].
  rewrite score_spans_in_bounds by exact (Hc LOC); cbn [bind].
  rewrite score_spans_in_bounds by exact (Hc ORG); cbn [bind].
  rewrite <- app_assoc, <- !map_app, length_map; fold (all_spans result).
  unfold match_ratio.
  destruct (all_spans result) as [ | s spans] eqn:E; [reflexivity | ].
  cbn [length Nat.eqb]; unfold truediv.
  rewrite inject_Z_nonzero by lia.
  rewrite sum_indicator; reflexivity.
Qed.

(** X17. Sequences of different lengths are not rejected: as long as every
    predicted span ends inside the gold sequence and every gold span ends
    inside the predictions, [precision] and [recall] return their
    exact-match ratios without any error. *)
Theorem length_mismatch_is_not_rejected (P G M : list Z) (tp tg : tags) :
  find_all_tags P M = Returns tp ->
  find_all_tags G M = Returns tg ->
  (forall s : span, In s (all_spans tp) -> (fst s + snd s < length G)%nat) ->
  (forall s : span, In s (all_spans tg) -> (fst s + snd s < length P)%nat) ->
  precision P G M = Returns (match_ratio P G (all_spans tp)) /\
  recall P G M = Returns (match_ratio P G (all_spans tg)).
Proof.
  intros HP HG Hp Hg.
  assert (Hin : forall (T : list Z) (out : tags) (s : span),
             find_all_tags T M = Returns out -> In s (all_spans out) ->
             (fst s + snd s < length T)%nat).
  { intros T out s H Hs; apply all_spans_of in Hs; destruct Hs as [c Hs].
    destruct (find_all_tags_emits _ _ _ _ _ H Hs) as (_ & _ & _ & Hb); lia. }
  unfold precision, recall; rewrite HP, HG; cbn [bind]; split;
    apply score_tags_in_bounds; intros s Hs; split;
    first [exact (Hp s Hs) | exact (Hg s Hs)
          | exact (Hin _ _ s HP Hs) | exact (Hin _ _ s HG Hs)].
Qed.

Lemma length_mismatch_is_not_rejected_witness :
  precision [0; 1; 6] [0; 1; 6; 6; 6] [1; 1; 1; 1; 1] =
  Returns (match_ratio [0; 1; 6] [0; 1; 6; 6; 6]
             (all_spans (mk_tags [(0, 1)%nat] [] []))) /\
  recall [0; 1; 6] [0; 1; 6; 6; 6] [1; 1; 1; 1; 1] =
  Returns (match_ratio [0; 1; 6] [0; 1; 6; 6; 6]
             (all_spans (mk_tags [(0, 1)%nat] [] []))).
Proof.
  apply (length_mismatch_is_not_rejected
           [0; 1; 6] [0; 1; 6; 6; 6] [1; 1; 1; 1; 1]
           (mk_tags [(0, 1)%nat] [] []) (mk_tags [(0, 1)%nat] [] []));
    try reflexivity;
    intros s [<- | []]; simpl; lia.
Defined.
